(** * PolishPatentCrawler (src/crawler.ts): a shallow embedding and its properties

  The crawler drives a browser through the advanced-search form of the
  patent office portal, walks the result pages and reads a fixed set of
  labelled fields from every detail page.

  Strings are JavaScript strings whose code units lie in the Latin-1 range
  (one [ascii] per code unit); the one text of the source that leaves that
  range is given by its code units.  The browser, the portal and the two
  libraries the file imports (Playwright, date-fns) are modelled by small
  explicit state machines, described where they are introduced. *)

From stdpp Require Import gmap strings list fin_maps pretty.
From Stdlib Require Import ZArith Ascii String.

Local Open Scope string_scope.

(** ** JavaScript string primitives used by the crawler *)

Module JsString.

(** [\s] of a regular expression and the characters [trim] removes,
    restricted to code units below 256: TAB, LF, VT, FF, CR, SPACE, NBSP. *)
Definition isWhiteSpace (c : ascii) : bool :=
  let n := N_of_ascii c in
  (((9 <=? n) && (n <=? 13)) || (n =? 32) || (n =? 160))%N.

Fixpoint trimStart (s : string) : string :=
  match s with
  | EmptyString => EmptyString
  | String c s' => if isWhiteSpace c then trimStart s' else s
  end.

Fixpoint trimEnd (s : string) : string :=
  match s with
  | EmptyString => EmptyString
  | String c s' =>
      match trimEnd s' with
      | EmptyString => if isWhiteSpace c then EmptyString else String c EmptyString
      | t => String c t
      end
  end.

(** [String.prototype.trim] *)
Definition trim (s : string) : string := trimEnd (trimStart s).

(** [s.replace(/\s+/g, " ")]: every maximal run of white space becomes
    one SPACE.  [inRun] tells that the previous code unit was white space. *)
Fixpoint collapseFrom (inRun : bool) (s : string) : string :=
  match s with
  | EmptyString => EmptyString
  | String c s' =>
      if isWhiteSpace c
      then (if inRun then collapseFrom true s' else String " " (collapseFrom true s'))
      else String c (collapseFrom false s')
  end.

Definition replaceSpaces (s : string) : string := collapseFrom false s.

Fixpoint startsWith (s p : string) {struct p} : bool :=
  match p, s with
  | EmptyString, _ => true
  | String _ _, EmptyString => false
  | String a p', String b s' => Ascii.eqb a b && startsWith s' p'
  end.

(** [String.prototype.includes] *)
Fixpoint includes (s p : string) : bool :=
  startsWith s p ||
  match s with
  | EmptyString => false
  | String _ s' => includes s' p
  end.

(** [String.prototype.toLowerCase] on Latin-1: A-Z and the accented
    capitals 0xC0-0xDE (the multiplication sign 0xD7 apart) move up by 32. *)
Definition lowerChar (c : ascii) : ascii :=
  let n := N_of_ascii c in
  if (((65 <=? n) && (n <=? 90)) ||
      ((192 <=? n) && (n <=? 222) && negb (n =? 215)))%N
  then ascii_of_N (n + 32) else c.

Fixpoint toLowerCase (s : string) : string :=
  match s with
  | EmptyString => EmptyString
  | String c s' => String (lowerChar c) (toLowerCase s')
  end.

(** A string in a condition: the empty string is the only falsy one. *)
Definition truthy (s : string) : bool :=
  match s with EmptyString => false | String _ _ => true end.

(** [p] occurs in [s] as a contiguous block of code units. *)
Definition Contains (s p : string) : Prop :=
  exists pre post : string, s = pre ++ p ++ post.

End JsString.

(** ** The field extractor *)

Module Extract.
Import JsString.

(** What [getDetailInformation] reads of a [td]: its classes, its text
    and the text of its first descendant of class [highlight]. *)
Record Cell := {
  classList : list string;
  textContent : string;
  highlight : option string
}.

(** A [tr] of [table.details-list] is the list of its [td] cells. *)
Abbreviation Row := (list Cell).

(** A [TrademarkData] object: a present key holds a string or [null]. *)
Abbreviation TrademarkData := (gmap string (option string)).

Definition fieldMappings : list (string * string) :=
  [ ("Name/Title", "nameTitle");
    ("Status", "status");
    ("Application date", "applicationDate");
    ("Revelation date", "revelationDate");
    ("Application number", "applicationNumber");
    ("Category of rights", "categoryOfRights");
    ("Registration number", "registrationNumber");
    ("Trademark type", "trademarkType") ].

(** The keys of the interface [TrademarkData]. *)
Definition schema : list string :=
  [ "nameTitle"; "status"; "applicationDate"; "revelationDate";
    "applicationNumber"; "categoryOfRights"; "registrationNumber";
    "trademarkType" ].

(** [labelCell.textContent?.trim().replace(/\s+/g, " ") || ""] *)
Definition labelTextOf (labelCell : Cell) : string :=
  replaceSpaces (trim (textContent labelCell)).

(** [Object.entries(fieldMappings).find(([label]) => labelText.includes(label))?.[1]] *)
Definition findField (labelText : string) : option string :=
  snd <$> List.find (fun entry => includes labelText (fst entry)) fieldMappings.

(** The value written for a matched label: the trimmed text of the
    highlight span when that is truthy, else the collapsed text of the
    cell, and [null] ([None]) when that is empty too. *)
Definition resolveValue (valueCell : Cell) : option string :=
  let value := default "" (trim <$> highlight valueCell) in
  let value := if truthy value then value
               else replaceSpaces (trim (textContent valueCell)) in
  if truthy value then Some value else None.

Definition isDetailTitle (c : Cell) : bool :=
  bool_decide ("detail-title" ∈ classList c).

(** The body of the [for] loop at cell offset [i]; [labelCell] is
    [cells[i]] and [valueCell] is [cells[i + 1]], [None] for [undefined]. *)
Definition visitPair (result : TrademarkData) (labelCell valueCell : option Cell)
  : TrademarkData :=
  match labelCell, valueCell with
  | Some l, Some v =>
      if isDetailTitle l then
        match findField (labelTextOf l) with
        | Some fieldName =>
            if truthy fieldName then <[fieldName := resolveValue v]> result
            else result
        | None => result
        end
      else result
  | _, _ => result
  end.

(** The offsets [0, 2, 4, ...] below [n]: the values [i] takes in
    [for (let i = 0; i < n; i += 2)]. *)
Definition evenOffsets (n : nat) : list nat :=
  List.filter Nat.even (seq 0 n).

Definition visitRow (result : TrademarkData) (cells : Row) : TrademarkData :=
  foldl (fun res i => visitPair res (cells !! i) (cells !! (i + 1)))
        result (evenOffsets (List.length cells)).

(** [getDetailInformation], on the rows the selector
    [table.details-list tr] returns. *)
Definition getDetailInformation (rows : list Row) : TrademarkData :=
  foldl visitRow ∅ rows.

End Extract.

(** ** date-fns [parse] with the pattern [yyyy-MM-dd] *)

Module DateFns.
Import JsString.
Local Open Scope Z_scope.

Definition isDigit (c : ascii) : bool :=
  let n := N_of_ascii c in ((48 <=? n) && (n <=? 57))%N.

Definition digitValue (c : ascii) : Z := Z.of_N (N_of_ascii c) - 48.

(** The digits a numeric token consumes: the regular expression
    [^\d{1,n}] is greedy and takes up to [n] of them. *)
Fixpoint digitsUpTo (n : nat) (acc : Z) (s : string) : Z * string :=
  match n, s with
  | S n', String c s' =>
      if isDigit c then digitsUpTo n' (10 * acc + digitValue c) s' else (acc, s)
  | _, _ => (acc, s)
  end.

(** [parseNDigits(n, dateString)]: the value and the rest of the input,
    [None] when the input does not start with a digit. *)
Definition parseNDigits (n : nat) (s : string) : option (Z * string) :=
  match s with
  | String c _ => if isDigit c then Some (digitsUpTo n 0 s) else None
  | EmptyString => None
  end.

(** A literal of the pattern must be the next character of the input. *)
Definition literal (c : ascii) (s : string) : option string :=
  match s with
  | String c' s' => if Ascii.eqb c c' then Some s' else None
  | EmptyString => None
  end.

(** What may follow the last token: nothing that matches [\S]. *)
Fixpoint onlyWhiteSpace (s : string) : bool :=
  match s with
  | EmptyString => true
  | String c s' => isWhiteSpace c && onlyWhiteSpace s'
  end.

Definition isLeapYearIndex (year : Z) : bool :=
  (year mod 400 =? 0) || ((year mod 4 =? 0) && negb (year mod 100 =? 0)).

Definition daysInMonth (year month : Z) : Z :=
  if month =? 2 then (if isLeapYearIndex year then 29 else 28)
  else if (month =? 4) || (month =? 6) || (month =? 9) || (month =? 11) then 30
  else 31.

(** The validators of the year, month and day tokens. *)
Definition validDate (year month day : Z) : bool :=
  (0 <? year) && (1 <=? month) && (month <=? 12) &&
  (1 <=? day) && (day <=? daysInMonth year month).

Definition daysBeforeMonth (year month : Z) : Z :=
  let feb := if isLeapYearIndex year then 29 else 28 in
  match month with
  | 1 => 0
  | 2 => 31
  | 3 => 31 + feb
  | 4 => 62 + feb
  | 5 => 92 + feb
  | 6 => 123 + feb
  | 7 => 153 + feb
  | 8 => 184 + feb
  | 9 => 215 + feb
  | 10 => 245 + feb
  | 11 => 276 + feb
  | _ => 306 + feb
  end.

(** The number of the day in the proleptic Gregorian calendar, day 1
    being 0001-01-01. *)
Definition dayNumber (year month day : Z) : Z :=
  let y := year - 1 in
  365 * y + y / 4 - y / 100 + y / 400 + daysBeforeMonth year month + day.

(** [Date.prototype.getTime] of midnight of that day, in milliseconds
    since 1970-01-01 (day 719163), with the clock on UTC. *)
Definition timeOf (year month day : Z) : Z :=
  (dayNumber year month day - 719163) * 86400000.

(** [parse(dateStr, "yyyy-MM-dd", new Date()).getTime()]; [None] stands
    for the NaN of an Invalid Date.  The tokens [yyyy], [MM] and [dd]
    accept 1 to 4, 1 to 2 and 1 to 2 digits, white space may follow the
    day, and the three values are then validated as a calendar date. *)
Definition parse (dateStr : string) : option Z :=
  '(year, s1) ← parseNDigits 4 dateStr;
  s2 ← literal "-" s1;
  '(month, s3) ← parseNDigits 2 s2;
  s4 ← literal "-" s3;
  '(day, s5) ← parseNDigits 2 s4;
  if onlyWhiteSpace s5 && validDate year month day
  then Some (timeOf year month day) else None.

End DateFns.

(** ** The command line's date check *)

Module Cli.
Import DateFns.

Inductive CharClass := Digit | Dash.

Definition inClass (k : CharClass) (c : ascii) : bool :=
  match k with
  | Digit => isDigit c
  | Dash => Ascii.eqb c "-"
  end.

Fixpoint matches (pattern : list CharClass) (s : string) : bool :=
  match pattern, s with
  | [], EmptyString => true
  | k :: pattern', String c s' => inClass k c && matches pattern' s'
  | _, _ => false
  end.

(** [dateRegex.test(s)] for [/^\d{4}-\d{2}-\d{2}$/] in [parseArgs]. *)
Definition dateRegexTest (s : string) : bool :=
  matches [Digit; Digit; Digit; Digit; Dash; Digit; Digit; Dash; Digit; Digit] s.

End Cli.

(** ** The browser session *)

Module Browser.
Import JsString.

Inductive Error :=
| ConfigurationError (message : string)   (* [new Error(...)] of checkDateRange *)
| NonRetryableError (message : string)
| TimeoutError (awaited : string)         (* a bounded wait of Playwright ran out *)
| TypeError (message : string).

Inductive Level := Console | Info | Warning | Failure.

(** [String(error)], as a template literal converts a caught error: the
    name of the error, a colon and its message, or the name alone when the
    message is empty.  Playwright and the engine word the messages of their
    errors themselves; for a wait that ran out the model has what was
    awaited in the place of the message. *)
Definition errorName (e : Error) : string :=
  match e with
  | ConfigurationError _ => "Error"
  | NonRetryableError _ => "Error"
  | TimeoutError _ => "TimeoutError"
  | TypeError _ => "TypeError"
  end.

Definition errorMessage (e : Error) : string :=
  match e with
  | ConfigurationError message => message
  | NonRetryableError message => message
  | TimeoutError awaited => awaited
  | TypeError message => message
  end.

Definition errorToString (e : Error) : string :=
  if truthy (errorMessage e) then errorName e ++ ": " ++ errorMessage e
  else errorName e.

(** The UTF-16 code units of a string of the model. *)
Definition codeUnits (s : string) : list N :=
  N_of_ascii <$> list_ascii_of_string s.

(** A value printed after the text of a line, as in
    [console.log(text, value)]: a list of strings, an object with the three
    fields of the options ([None] for [undefined]), a record, or an error. *)
Inductive Printed :=
| Strings (items : list string)
| Fields (start finish output : option string)
| Fieldset (data : gmap string (option string))
| Caught (e : Error).

(** What the crawler does to the outside, in the order it does it.  A log
    line is its text ([Log]), its text as code units where some of them lie
    above the Latin-1 range ([LogUnits]), or its text and a value
    ([LogWith]). *)
Inductive Event :=
| Click (selector : string)
| ClickBox (checkbox : nat)
| Press (key : string)
| TypeText (selector text : string)
| WaitForTimeout (ms : nat)
| EnqueueLinks (urls : list string)
| ClickNext
| Log (level : Level) (message : string)
| LogUnits (level : Level) (units : list N)
| LogWith (level : Level) (message : string) (value : Printed)
| WriteFile (path : string) (records : list (gmap string (option string))).

(** How a call ends.  [Running] is a loop that has not left yet when the
    step budget of the model is used up. *)
Inductive Completion (A : Type) :=
| Returned (a : A)
| Thrown (e : Error)
| Running.
Arguments Returned {A} a.
Arguments Thrown {A} e.
Arguments Running {A}.

(** An [input type="checkbox"]: its [id] attribute ([None] for [null]),
    its state, and whether it sits in a [.ui-chkbox] that holds a
    [.ui-chkbox-box]. *)
Record Checkbox := {
  cb_id : option string;
  cb_checked : bool;
  cb_boxed : bool
}.

Inductive NextControl := Missing | Disabled | Enabled.

(** What the crawler reads of the displayed document. *)
Record Document := {
  searchTable : bool;              (* [.search-table] is there *)
  infoMessage : option string;     (* text of [.tabs-info-message] *)
  anchors : list string;           (* hrefs under [table tbody tr td a] *)
  nextControl : NextControl        (* [a.ui-paginator-next] *)
}.

Record Page := {
  url : string;
  settles : bool;                  (* network idle, then [.search-attr-container] *)
  checkboxes : list Checkbox;
  inputs : gmap string string;     (* text inputs by selector, with their value *)
  focus : option string;
  selection : bool;                (* the focused input is selected as a whole *)
  navigates : option (list Document);  (* where the submit button leads, if anywhere *)
  document : Document;
  later : list Document;           (* what the next control leads to, in order *)
  events : list Event
}.

Definition M (A : Type) : Type := Page -> Completion A * Page.

#[global] Instance M_ret : MRet M := fun A a page => (Returned a, page).
#[global] Instance M_bind : MBind M := fun A B f m page =>
  match m page with
  | (Returned a, page') => f a page'
  | (Thrown e, page') => (Thrown e, page')
  | (Running, page') => (Running, page')
  end.

Definition throw {A} (e : Error) : M A := fun page => (Thrown e, page).

(** Updates of one part of the page. *)
Definition addEvent (ev : Event) (page : Page) : Page :=
  {| url := url page; settles := settles page; checkboxes := checkboxes page;
     inputs := inputs page; focus := focus page; selection := selection page;
     navigates := navigates page; document := document page;
     later := later page; events := events page ++ [ev] |}.

Definition withCheckboxes (cbs : list Checkbox) (page : Page) : Page :=
  {| url := url page; settles := settles page; checkboxes := cbs;
     inputs := inputs page; focus := focus page; selection := selection page;
     navigates := navigates page; document := document page;
     later := later page; events := events page |}.

Definition withInput (ins : gmap string string) (f : option string) (sel : bool)
    (page : Page) : Page :=
  {| url := url page; settles := settles page; checkboxes := checkboxes page;
     inputs := ins; focus := f; selection := sel;
     navigates := navigates page; document := document page;
     later := later page; events := events page |}.

Definition withDocuments (d : Document) (ds : list Document) (page : Page) : Page :=
  {| url := url page; settles := settles page; checkboxes := checkboxes page;
     inputs := inputs page; focus := focus page; selection := selection page;
     navigates := navigates page; document := d;
     later := ds; events := events page |}.

Definition emit (ev : Event) : M unit := fun page =>
  (Returned tt, addEvent ev page).

Definition setCheckboxes (cbs : list Checkbox) : M unit := fun page =>
  (Returned tt, withCheckboxes cbs page).

Definition setInput (ins : gmap string string) (f : option string) (sel : bool)
  : M unit := fun page => (Returned tt, withInput ins f sel page).

Definition setDocuments (d : Document) (ds : list Document) : M unit := fun page =>
  (Returned tt, withDocuments d ds page).

Definition get : M Page := fun page => (Returned page, page).

Definition emptyDocument : Document :=
  {| searchTable := false; infoMessage := None; anchors := [];
     nextControl := Missing |}.

(** [page.waitForLoadState] followed by [page.waitForSelector]. *)
Definition waitForContainer (selector : string) : M unit :=
  page ← get;
  if settles page then mret tt else throw (TimeoutError selector).

(** [page.click(selector)] on a text input: the input takes the focus. *)
Definition click (selector : string) : M unit :=
  page ← get;
  match inputs page !! selector with
  | Some _ => emit (Click selector) ;; setInput (inputs page) (Some selector) false
  | None => throw (TimeoutError selector)
  end.

Fixpoint removeLast (s : string) : string :=
  match s with
  | EmptyString => EmptyString
  | String _ EmptyString => EmptyString
  | String c s' => String c (removeLast s')
  end.

(** [page.keyboard.press(key)] for the two keys the crawler uses. *)
Definition press (key : string) : M unit :=
  page ← get;
  emit (Press key) ;;
  match focus page with
  | Some selector =>
      if String.eqb key "Control+A" then setInput (inputs page) (focus page) true
      else if String.eqb key "Backspace" then
        let old := default "" (inputs page !! selector) in
        let new := if selection page then "" else removeLast old in
        setInput (<[selector := new]> (inputs page)) (focus page) false
      else mret tt
  | None => mret tt
  end.

(** [page.type(selector, text)]: the input takes the focus and receives
    the characters; they replace a selection. *)
Definition type (selector text : string) : M unit :=
  page ← get;
  match inputs page !! selector with
  | Some old =>
      emit (TypeText selector text) ;;
      let kept := if selection page && bool_decide (focus page = Some selector)
                  then "" else old in
      setInput (<[selector := kept ++ text]> (inputs page)) (Some selector) false
  | None => throw (TimeoutError selector)
  end.

Definition waitForTimeout (ms : nat) : M unit := emit (WaitForTimeout ms).

(** [Promise.all([page.waitForNavigation(...), page.click(button)])] *)
Definition clickAndNavigate (button : string) : M unit :=
  page ← get;
  emit (Click button) ;;
  match navigates page with
  | Some (d :: ds) => setDocuments d ds
  | Some [] => setDocuments emptyDocument []
  | None => throw (TimeoutError "navigation")
  end.

(** [page.waitForFunction] on the presence of either element. *)
Definition waitForOutcome : M unit :=
  page ← get;
  if searchTable (document page) || bool_decide (is_Some (infoMessage (document page)))
  then mret tt else throw (TimeoutError "waitForFunction").

(** [page.$eval(".tabs-info-message", el => el?.textContent?.toLowerCase().trim())
    .catch(() => null)] *)
Definition evalInfoMessage : M (option string) :=
  page ← get;
  mret ((fun text => trim (toLowerCase text)) <$> infoMessage (document page)).

(** A handle as [evaluateHandle] resolves to one: Playwright wraps whatever
    the page function returned, an element or [undefined] alike. *)
Inductive JSHandle :=
| ElementHandle (checkbox : nat)
| ValueHandle.

(** A handle is an object, and an object is truthy in a condition. *)
Definition handleTruthy (h : JSHandle) : bool := true.

(** [checkbox.evaluateHandle(el => el.closest(".ui-chkbox")
      ?.querySelector(".ui-chkbox-box"))] *)
Definition boxOf (i : nat) (cb : Checkbox) : JSHandle :=
  if cb_boxed cb then ElementHandle i else ValueHandle.

Definition toggle (cb : Checkbox) : Checkbox :=
  {| cb_id := cb_id cb; cb_checked := negb (cb_checked cb); cb_boxed := cb_boxed cb |}.

(** [box.click()]: a click on the box flips its checkbox; only the handle
    of an element has a [click] method. *)
Definition clickHandle (h : JSHandle) : M unit :=
  match h with
  | ElementHandle i =>
      page ← get;
      emit (ClickBox i) ;;
      setCheckboxes (alter toggle i (checkboxes page))
  | ValueHandle => throw (TypeError "box.click is not a function")
  end.

End Browser.

(** ** The class [PolishPatentCrawler] *)

Module Crawler.
Import JsString Extract Browser.

Record CrawlerOptions := {
  startDate : string;
  endDate : string;
  outputFile : option string
}.

(** The fields of the object: [options], [results] and [formFilled]. *)
Record Crawler := {
  options : CrawlerOptions;
  results : list TrademarkData;
  formFilled : bool
}.

Definition baseUrl : string :=
  "https://ewyszukiwarka.pue.uprp.gov.pl/search/advanced-search".

(** Two settings of the [PlaywrightCrawler]: the number of requests it
    handles at most, and the seconds it waits for a handler. *)
Definition maxRequestsPerCrawl : nat := 1000.

Definition requestHandlerTimeoutSecs : nat := 180.

(** [a > b] on two dates compares their times; it is false when either
    is NaN. *)
Definition dateGt (a b : option Z) : bool :=
  match a, b with
  | Some x, Some y => (y <? x)%Z
  | _, _ => false
  end.

Definition checkDateRange (opts : CrawlerOptions) : Completion unit :=
  let isValidDate (dateStr : string) := bool_decide (is_Some (DateFns.parse dateStr)) in
  if negb (isValidDate (startDate opts)) || negb (isValidDate (endDate opts))
  then Thrown (ConfigurationError "Invalid date format. Use YYYY-MM-DD.")
  else
    let parsedStart := DateFns.parse (startDate opts) in
    let parsedEnd := DateFns.parse (endDate opts) in
    if dateGt parsedStart parsedEnd
    then Thrown (ConfigurationError "Start date must be before or equal to end date.")
    else Returned tt.

Definition targetCheckboxes : list string :=
  [ "pwp_criteria_0";
    "collections_criteria_advanced_7";
    "collections_criteria_advanced_7_child_attrs_0" ].

Fixpoint forEach {A} (body : A -> M unit) (l : list A) : M unit :=
  match l with
  | [] => mret tt
  | x :: l' => body x ;; forEach body l'
  end.

(** The body of the loop of [configureCheckboxes] for the [i]-th handle
    that [page.$$] returned; the state of the checkbox is read now. *)
Definition configureCheckbox (i : nat) : M unit :=
  page ← get;
  match checkboxes page !! i with
  | None => mret tt
  | Some checkbox =>
      match cb_id checkbox with
      | None => mret tt
      | Some id =>
          if negb (truthy id) then mret tt
          else
            let isChecked := cb_checked checkbox in
            let shouldBeChecked := bool_decide (id ∈ targetCheckboxes) in
            if negb (Bool.eqb isChecked shouldBeChecked) then
              let box := boxOf i checkbox in
              if handleTruthy box
              then clickHandle box ;; waitForTimeout 100
              else mret tt
            else mret tt
      end
  end.

Definition configureCheckboxes : M unit :=
  page ← get;
  forEach configureCheckbox (seq 0 (List.length (checkboxes page))).

Definition inputDateValue (selector value : string) : M unit :=
  click selector ;;
  press "Control+A" ;;
  press "Backspace" ;;
  type selector value ;;
  waitForTimeout 300.

(** [errorText?.includes(phrase)]: falsy when [errorText] is [null]. *)
Definition optIncludes (errorText : option string) (phrase : string) : bool :=
  match errorText with
  | Some text => includes text phrase
  | None => false
  end.

Definition executeSearch (opts : CrawlerOptions) : M unit :=
  emit (Log Console ("Performing search for date range: " ++ startDate opts
                     ++ " to " ++ endDate opts)) ;;
  waitForContainer ".search-attr-container" ;;
  configureCheckboxes ;;
  inputDateValue "#attribute_date_from" (endDate opts) ;;
  inputDateValue "#attribute_date_to" (startDate opts) ;;
  clickAndNavigate ".ui-button-secondary .ui-clickable" ;;
  waitForOutcome ;;
  errorText ← evalInfoMessage;
  if optIncludes errorText "no results found"
  then throw (NonRetryableError "No results found for the given criteria")
  else if optIncludes errorText "too many results found"
  then throw (NonRetryableError
                "Too many results found. Please narrow your search criteria")
  else mret tt.

(** [page.$("a.ui-paginator-next:not(.ui-state-disabled)")] is not null. *)
Definition nextButton (page : Page) : bool :=
  match nextControl (document page) with
  | Enabled => true
  | _ => false
  end.

(** [nextButton.click()]: the next document of the listing is shown; a
    control with nothing behind it leaves the document as it is. *)
Definition clickNext : M unit :=
  page ← get;
  emit ClickNext ;;
  match later page with
  | d :: ds => setDocuments d ds
  | [] => mret tt
  end.

(** The [do ... while (hasNextPage)] loop of the default handler, run for
    at most [fuel] rounds. *)
Fixpoint paginate (fuel : nat) : M unit :=
  match fuel with
  | O => fun page => (Running, page)
  | S fuel' =>
      page ← get;
      emit (EnqueueLinks (anchors (document page))) ;;
      if nextButton page then
        emit (Log Info "Navigating to next page...") ;;
        clickNext ;;
        waitForTimeout 1500 ;;
        paginate fuel'
      else
        emit (Log Info "No more pages to paginate.")
  end.

Definition setFormFilled (this : Crawler) : Crawler :=
  {| options := options this; results := results this; formFilled := true |}.

Definition pushResult (this : Crawler) (data : TrademarkData) : Crawler :=
  {| options := options this; results := results this ++ [data];
     formFilled := formFilled this |}.

(** The default handler of the router. *)
Definition defaultHandler (fuel : nat) (this : Crawler) (page : Page)
  : Completion unit * Crawler * Page :=
  let '(searched, this1, page1) :=
    if includes (url page) "/search/advanced-search" && negb (formFilled this)
    then
      match (emit (Log Info "Filling out search form...") ;;
             executeSearch (options this)) page with
      | (Returned tt, page') => (Returned tt, setFormFilled this, page')
      | (stopped, page') => (stopped, this, page')
      end
    else (Returned tt, this, page) in
  match searched with
  | Returned tt =>
      let '(walked, page2) := paginate fuel page1 in (walked, this1, page2)
  | stopped => (stopped, this1, page1)
  end.

(** What the detail handler reads of the page of one record. *)
Record DetailPage := {
  dp_url : string;
  dp_loads : bool;        (* network idle within 20 s *)
  dp_panel : bool;        (* [section.panel] within 15 s *)
  dp_rows : list Row      (* the rows of [table.details-list] *)
}.

(** The [try] block of the detail handler.  [data] is an object, so that
    [data && Object.keys(data).length] tests the number of its keys. *)
Definition detailBody (this : Crawler) (page : DetailPage)
  : Completion unit * Crawler * list Event :=
  if negb (dp_loads page) then (Thrown (TimeoutError "networkidle"), this, [])
  else if negb (dp_panel page) then (Thrown (TimeoutError "section.panel"), this, [])
  else
    let data := getDetailInformation (dp_rows page) in
    if negb (Nat.eqb (size data) 0) then
      (Returned tt, pushResult this data,
       [ WaitForTimeout 1000;
         LogWith Console ("Extracted data from " ++ dp_url page ++ ":") (Fieldset data) ])
    else
      (Returned tt, this,
       [ WaitForTimeout 1000;
         Log Warning ("No data extracted from: " ++ dp_url page) ]).

(** The four code units the text of the first log line of the detail
    handler starts with in the source: U+00F0, U+0178, U+201C, U+201E. *)
Definition pictograph : list N := [240; 376; 8220; 8222]%N.

(** The handler of the label [detail]: the [catch] turns whatever the
    body throws into a log line that ends with the error as a string. *)
Definition detailHandler (this : Crawler) (page : DetailPage)
  : Completion unit * Crawler * list Event :=
  let started :=
    LogUnits Info (pictograph ++ codeUnits (" Processing detail: " ++ dp_url page)) in
  match detailBody this page with
  | (Thrown error, this', evs) =>
      (Returned tt, this',
       started :: evs ++
       [ Log Failure ("Failed to process " ++ dp_url page ++ ": "
                      ++ errorToString error) ])
  | (done, this', evs) => (done, this', started :: evs)
  end.

(** [crawl]: the dates are checked first; the router, the handlers and
    the run of the crawling engine come after, and the records are written
    at the end.  [engine] is the run of [PlaywrightCrawler] on [baseUrl] with
    the two handlers: it returns the object as the handlers left it and what
    happened meanwhile.  (The path is written as given, not resolved.) *)
Definition crawl (engine : Crawler -> Crawler * list Event) (this : Crawler)
  : Completion (list TrademarkData) * Crawler * list Event :=
  match checkDateRange (options this) with
  | Returned tt =>
      let '(this', evs) := engine this in
      let outputPath :=
        match outputFile (options this') with
        | Some file => if truthy file then file else "output.json"
        | None => "output.json"
        end in
      (Returned (results this'), this',
       (Log Console "Starting crawler..." :: evs ++
        [ Log Console ("Crawling completed. Found "
                       ++ pretty (List.length (results this')) ++ " records.");
          WriteFile outputPath (results this');
          Log Console ("Results saved to: " ++ outputPath) ])%list)
  | Thrown e => (Thrown e, this, [])
  | Running => (Running, this, [])
  end.

End Crawler.

(** ** The command line *)

Module CommandLine.
Import JsString Cli Browser Crawler.

(** [s.split(sep)] for a separator of one character. *)
Fixpoint split (sep : ascii) (s : string) : list string :=
  match s with
  | EmptyString => [EmptyString]
  | String c s' =>
      if Ascii.eqb c sep then EmptyString :: split sep s'
      else match split sep s' with
           | piece :: pieces => String c piece :: pieces
           | [] => [String c EmptyString]
           end
  end.

(** The object [options] while the arguments are read: a field holds
    [None] once [undefined] was assigned to it. *)
Record RawOptions := {
  rawStart : option string;
  rawEnd : option string;
  rawOutput : option string
}.

Definition initialOptions : RawOptions :=
  {| rawStart := Some ""; rawEnd := Some ""; rawOutput := Some "output.json" |}.

Definition setStart (o : RawOptions) (v : option string) : RawOptions :=
  {| rawStart := v; rawEnd := rawEnd o; rawOutput := rawOutput o |}.

Definition setEnd (o : RawOptions) (v : option string) : RawOptions :=
  {| rawStart := rawStart o; rawEnd := v; rawOutput := rawOutput o |}.

Definition setOutput (o : RawOptions) (v : option string) : RawOptions :=
  {| rawStart := rawStart o; rawEnd := rawEnd o; rawOutput := v |}.

(** [!x] for a field: [undefined] and the empty string are falsy. *)
Definition falsy (x : option string) : bool :=
  match x with
  | Some s => negb (truthy s)
  | None => true
  end.

(** How the loop over the arguments ends: at the end of the list, or at
    [process.exit(0)] after the help was printed. *)
Inductive Scan :=
| Scanned (o : RawOptions)
| HelpShown.

(** The [for] loop of [parseArgs] from the argument [arg] on; a flag that
    takes its value from the next argument ([args[++i]]) skips it, and
    reads [undefined] when it is the last one. *)
Fixpoint scan (o : RawOptions) (args : list string) : Scan :=
  match args with
  | [] => Scanned o
  | arg :: rest =>
      if startsWith arg "--start-date=" || startsWith arg "-s="
      then scan (setStart o (split "=" arg !! 1)) rest
      else if String.eqb arg "--start-date" || String.eqb arg "-s"
      then match rest with
           | v :: rest' => scan (setStart o (Some v)) rest'
           | [] => Scanned (setStart o None)
           end
      else if startsWith arg "--end-date=" || startsWith arg "-e="
      then scan (setEnd o (split "=" arg !! 1)) rest
      else if String.eqb arg "--end-date" || String.eqb arg "-e"
      then match rest with
           | v :: rest' => scan (setEnd o (Some v)) rest'
           | [] => Scanned (setEnd o None)
           end
      else if startsWith arg "--output=" || startsWith arg "-o="
      then scan (setOutput o (split "=" arg !! 1)) rest
      else if String.eqb arg "--output" || String.eqb arg "-o"
      then match rest with
           | v :: rest' => scan (setOutput o (Some v)) rest'
           | [] => Scanned (setOutput o None)
           end
      else if String.eqb arg "--help" || String.eqb arg "-h"
      then HelpShown
      else if negb (startsWith arg "-") && falsy (rawStart o)
      then scan (setStart o (Some arg)) rest
      else if negb (startsWith arg "-") && falsy (rawEnd o) && negb (falsy (rawStart o))
      then scan (setEnd o (Some arg)) rest
      else scan o rest
  end.









End CommandLine.

(** ** Calendar dates written YYYY-MM-DD *)

Module Calendar.
Import DateFns Cli.
Local Open Scope Z_scope.

(** The year, month and day that the ten characters of a string of the
    shape [dddd-dd-dd] spell. *)
Definition fieldsOf (s : string) : option (Z * Z * Z) :=
  match s with
  | String y1 (String y2 (String y3 (String y4 (String _
      (String m1 (String m2 (String _
        (String d1 (String d2 EmptyString))))))))) =>
      Some (1000 * digitValue y1 + 100 * digitValue y2
            + 10 * digitValue y3 + digitValue y4,
            10 * digitValue m1 + digitValue m2,
            10 * digitValue d1 + digitValue d2)
  | _ => None
  end.

(** A well-formed YYYY-MM-DD date: four, two and two digits with dashes
    between them that name a day of the calendar (years 0001 to 9999). *)
Definition calendarDate (s : string) : option (Z * Z * Z) :=
  if dateRegexTest s then
    match fieldsOf s with
    | Some (y, m, d) => if validDate y m d then Some (y, m, d) else None
    | None => None
    end
  else None.

(** Chronological order of calendar dates. *)
Definition dateLt (a b : Z * Z * Z) : Prop :=
  let '(y1, m1, d1) := a in
  let '(y2, m2, d2) := b in
  y1 < y2 \/ (y1 = y2 /\ (m1 < m2 \/ (m1 = m2 /\ d1 < d2))).

Definition dateLe (a b : Z * Z * Z) : Prop := dateLt a b \/ a = b.

End Calendar.

(** ** Notions the properties are stated with *)

Module Notions.
Import JsString Extract DateFns Cli Calendar Browser Crawler CommandLine.

(** The entry of [fieldMappings] at position [i] is the first one whose
    phrase occurs in [text]. *)
Definition FirstMatch (text : string) (i : nat) (phrase fieldName : string) : Prop :=
  fieldMappings !! i = Some (phrase, fieldName) /\
  Contains text phrase /\
  forall j entry, j < i -> fieldMappings !! j = Some entry ->
                  ~ Contains text entry.1.

(** The pair of cells that wrote [value] to [key]: a cell of class
    detail-title at an even offset of a row, the cell right after it, the
    field its label text selects and the value that cell resolves to. *)
Definition Contributes (rows : list Row) (key : string) (value : option string)
  : Prop :=
  exists (cells : Row) (i : nat) (l v : Cell),
    cells ∈ rows /\ Nat.even i = true /\
    cells !! i = Some l /\ cells !! (i + 1) = Some v /\
    isDetailTitle l = true /\
    findField (labelTextOf l) = Some key /\
    value = resolveValue v.

(** The state to which the loop brings a checkbox. *)
Definition settled (cb : Checkbox) : Checkbox :=
  match cb_id cb with
  | Some id =>
      if truthy id
      then {| cb_id := cb_id cb;
              cb_checked := bool_decide (id ∈ targetCheckboxes);
              cb_boxed := cb_boxed cb |}
      else cb
  | None => cb
  end.

(** The checkbox carries an id and is not in the state the list asks for. *)
Definition needsClick (cb : Checkbox) : bool :=
  match cb_id cb with
  | Some id =>
      truthy id && negb (Bool.eqb (cb_checked cb) (bool_decide (id ∈ targetCheckboxes)))
  | None => false
  end.

(** The id of the checkbox is on the allow-list. *)
Definition listed (cb : Checkbox) : bool :=
  match cb_id cb with
  | Some id => bool_decide (id ∈ targetCheckboxes)
  | None => false
  end.

Fixpoint clicksFrom (i : nat) (cbs : list Checkbox) : list Event :=
  match cbs with
  | [] => []
  | cb :: cbs' =>
      (if needsClick cb then [ClickBox i; WaitForTimeout 100] else [])
      ++ clicksFrom (S i) cbs'
  end%list.

(** Everything of the page but its checkboxes and its events. *)
Definition sameSession (p q : Page) : Prop :=
  url p = url q /\ settles p = settles q /\ inputs p = inputs q /\
  focus p = focus q /\ selection p = selection q /\
  navigates p = navigates q /\ document p = document q /\ later p = later q.

Definition FormReady (page : Page) : Prop :=
  settles page = true /\
  (forall cb, cb ∈ checkboxes page -> needsClick cb = true -> cb_boxed cb = true) /\
  is_Some (inputs page !! "#attribute_date_from") /\
  is_Some (inputs page !! "#attribute_date_to").

Definition dateEvents (selector value : string) : list Event :=
  [ Click selector; Press "Control+A"; Press "Backspace";
    TypeText selector value; WaitForTimeout 300 ].

Definition searchLog (opts : CrawlerOptions) : Event :=
  Log Console ("Performing search for date range: " ++ startDate opts
               ++ " to " ++ endDate opts).

Definition submitClick : Event := Click ".ui-button-secondary .ui-clickable".

(** The texts typed, with the input each went to, in order. *)
Definition typed (evs : list Event) : list (string * string) :=
  omap (fun ev => match ev with
                  | TypeText selector text => Some (selector, text)
                  | _ => None
                  end) evs.

(** The text the search step looks into: lower-cased, then trimmed. *)
Definition normalized (d : Document) : option string :=
  (fun text => trim (toLowerCase text)) <$> infoMessage d.

Definition noResults : Error :=
  NonRetryableError "No results found for the given criteria".

Definition tooManyResults : Error :=
  NonRetryableError "Too many results found. Please narrow your search criteria".

(** What one round of the loop does on a page with an enabled next
    control, and what the last round does. *)
Definition roundEvents (d : Document) : list Event :=
  [ EnqueueLinks (anchors d); Log Info "Navigating to next page...";
    ClickNext; WaitForTimeout 1500 ].

Definition lastEvents (d : Document) : list Event :=
  [ EnqueueLinks (anchors d); Log Info "No more pages to paginate." ].

Fixpoint walkEvents (docs : list Document) (last : Document) : list Event :=
  match docs with
  | [] => lastEvents last
  | d :: docs' => (roundEvents d ++ walkEvents docs' last)%list
  end.

(** The lists of links handed to [enqueueLinks], one per call. *)
Definition enqueued (evs : list Event) : list (list string) :=
  omap (fun ev => match ev with EnqueueLinks urls => Some urls | _ => None end) evs.

Definition nextClicks (evs : list Event) : nat :=
  List.length (List.filter (fun ev => match ev with ClickNext => true | _ => false end) evs).

(** The words of a text: its maximal runs of characters that are not
    white space, in order. *)
Fixpoint words (s : string) : list string :=
  match s with
  | EmptyString => []
  | String c s' =>
      if isWhiteSpace c then words s'
      else match s' with
           | EmptyString => [String c EmptyString]
           | String d _ =>
               if isWhiteSpace d then String c EmptyString :: words s'
               else match words s' with
                    | w :: ws => String c w :: ws
                    | [] => [String c EmptyString]
                    end
           end
  end.

(** The words with one SPACE between them. *)
Fixpoint unwords (ws : list string) : string :=
  match ws with
  | [] => EmptyString
  | [w] => w
  | w :: ws' => w ++ String " " (unwords ws')
  end.

Definition startsBlank (s : string) : bool :=
  match s with
  | EmptyString => false
  | String c _ => isWhiteSpace c
  end.

(** The text of a cell with its white space collapsed: its words with one
    SPACE between them. *)
Definition collapsedText (s : string) : string := unwords (words s).

(** [l] is a label cell with its value cell [v]: a cell of class
    detail-title at the even offset [i] of the row [r], and the cell right
    after it. *)
Definition LabelAt (rows : list Row) (r i : nat) (l v : Cell) : Prop :=
  exists cells : Row,
    rows !! r = Some cells /\ Nat.even i = true /\
    cells !! i = Some l /\ cells !! (i + 1) = Some v /\
    "detail-title" ∈ classList l.

(** The field a label selects: the one of the first entry of the table, in
    table order, whose phrase occurs in the collapsed text of the label. *)
Definition Selects (l : Cell) (fieldName : string) : Prop :=
  exists i phrase, FirstMatch (collapsedText (textContent l)) i phrase fieldName.

(** No label after the one at offset [i] of row [r] selects [fieldName]. *)
Definition LastFor (rows : list Row) (fieldName : string) (r i : nat) : Prop :=
  forall r' i' l' v',
    LabelAt rows r' i' l' v' -> Selects l' fieldName ->
    r' < r \/ (r' = r /\ i' <= i).

(** The pair at an even offset writes the field. *)
Definition Writes (cells : Row) (fieldName : string) (i : nat) : Prop :=
  exists l v, Nat.even i = true /\
              cells !! i = Some l /\ cells !! (i + 1) = Some v /\
              isDetailTitle l = true /\
              findField (labelTextOf l) = Some fieldName.

Definition visitAt (cells : Row) (result : TrademarkData) (i : nat) : TrademarkData :=
  visitPair result (cells !! i) (cells !! (i + 1)).

(** [Writes] and [LastFor], decided by going through the table. *)
Definition writesAt (cells : Row) (fieldName : string) (j : nat) : bool :=
  Nat.even j &&
  match cells !! j, cells !! (j + 1) with
  | Some l, Some _ =>
      isDetailTitle l && bool_decide (findField (labelTextOf l) = Some fieldName)
  | _, _ => false
  end.

Definition noneLater (rows : list Row) (fieldName : string) (r i : nat) : bool :=
  forallb (fun r' =>
    match rows !! r' with
    | Some cells =>
        forallb (fun j =>
          implb (writesAt cells fieldName j)
                (Nat.ltb r' r || (Nat.eqb r' r && Nat.leb j i)))
          (seq 0 (List.length cells))
    | None => true
    end) (seq 0 (List.length rows)).

(** No field of the record holds a value: every key it has, if any, holds
    null. *)
Definition NoPopulatedField (data : TrademarkData) : Prop :=
  forall key value, data !! key = Some value -> value = None.

(** The claim about a detail job as the specification words it: a record
    of a rendered page without a populated field is logged and skipped, and
    the handler returns. *)
Definition StatedDetailClaim (this : Crawler) (page : DetailPage) : Prop :=
  dp_loads page = true -> dp_panel page = true ->
  NoPopulatedField (getDetailInformation (dp_rows page)) ->
  (detailHandler this page).1.1 = Returned tt /\
  results (detailHandler this page).1.2 = results this /\
  Log Warning ("No data extracted from: " ++ dp_url page) ∈ (detailHandler this page).2.

(** No [=] in the string. *)
Fixpoint plain (s : string) : bool :=
  match s with
  | EmptyString => true
  | String c s' => negb (Ascii.eqb c "=") && plain s'
  end.

(** What may follow the value in an argument of the form [flag=value]:
    nothing, or a further [=] and any text. *)
Definition Dropped (junk : string) : Prop :=
  junk = "" \/ exists w, junk = String "=" w.

(** An argument that does not start with a dash. *)
Definition bare (arg : string) : bool := negb (startsWith arg "-").


Definition noClickMethod : Error := TypeError "box.click is not a function".

Definition datesTyped (opts : CrawlerOptions) : list (string * string) :=
  [ ("#attribute_date_from", endDate opts); ("#attribute_date_to", startDate opts) ].

(** One round of the loop on a page whose next control is enabled. *)
Definition afterClick (page : Page) : Page :=
  let clicked :=
    addEvent ClickNext
      (addEvent (Log Info "Navigating to next page...")
         (addEvent (EnqueueLinks (anchors (document page))) page)) in
  addEvent (WaitForTimeout 1500)
    match later page with
    | d :: ds => withDocuments d ds clicked
    | [] => clicked
    end.

(** The next control is enabled on the page shown and on every page
    behind it. *)
Definition AlwaysNext (page : Page) : Prop :=
  nextControl (document page) = Enabled /\
  Forall (fun d => nextControl d = Enabled) (later page).

(** The claim about the date check as the specification words it, for one
    pair of strings: well-formed dates in order pass, and a malformed string
    or dates out of order make the check throw. *)
Definition StatedDateClaim (opts : CrawlerOptions) : Prop :=
  (forall ds de,
      calendarDate (startDate opts) = Some ds ->
      calendarDate (endDate opts) = Some de ->
      dateLe ds de -> checkDateRange opts = Returned tt) /\
  (calendarDate (startDate opts) = None \/ calendarDate (endDate opts) = None \/
   (exists ds de, calendarDate (startDate opts) = Some ds /\
                  calendarDate (endDate opts) = Some de /\ dateLt de ds) ->
   exists e, checkDateRange opts = Thrown e).

(** The claim about the checkboxes as the specification words it: after the
    configuration the listed checkboxes are checked and all others are not. *)
Definition StatedCheckboxClaim (page : Page) : Prop :=
  forall page', configureCheckboxes page = (Returned tt, page') ->
  forall cb, cb ∈ checkboxes page' -> cb_checked cb = listed cb.

End Notions.

(** ** Pages and options the properties are tried on *)

Module Fixtures.
Import JsString Extract Browser Crawler.

Definition statusLabel : Cell :=
  {| classList := ["detail-title"];
     textContent := "  Registration number /  Status ";
     highlight := None |}.

Definition plainValue : Cell :=
  {| classList := []; textContent := " Registered "; highlight := None |}.

Definition highlightedValue : Cell :=
  {| classList := []; textContent := "prefix X suffix"; highlight := Some " X " |}.

Definition blankValue : Cell :=
  {| classList := []; textContent := "   "; highlight := Some " " |}.

Definition looseOptions : CrawlerOptions :=
  {| startDate := "2024-1-5"; endDate := "2024-1-6"; outputFile := None |}.

Definition reversedOptions : CrawlerOptions :=
  {| startDate := "2024-12-31"; endDate := "2024-01-01"; outputFile := None |}.

Definition noDayOptions : CrawlerOptions :=
  {| startDate := "2024-02-30"; endDate := "2024-03-01"; outputFile := None |}.

Definition newCrawler (opts : CrawlerOptions) : Crawler :=
  {| options := opts; results := []; formFilled := false |}.

Definition idleEngine (this : Crawler) : Crawler * list Event := (this, []).

Definition year2024 : CrawlerOptions :=
  {| startDate := "2024-01-01"; endDate := "2024-12-31"; outputFile := None |}.

Definition formPage (cbs : list Checkbox) (response : option (list Document)) : Page :=
  {| url := baseUrl; settles := true; checkboxes := cbs;
     inputs := {[ "#attribute_date_from" := "01.01.2000";
                  "#attribute_date_to" := "" ]};
     focus := None; selection := false; navigates := response;
     document := emptyDocument; later := []; events := [] |}.

Definition someCheckboxes : list Checkbox :=
  [ {| cb_id := Some "pwp_criteria_0"; cb_checked := false; cb_boxed := true |};
    {| cb_id := Some "pwp_criteria_1"; cb_checked := true; cb_boxed := true |};
    {| cb_id := Some "collections_criteria_advanced_7"; cb_checked := true;
       cb_boxed := false |};
    {| cb_id := None; cb_checked := false; cb_boxed := false |} ].

Definition anonymousCheckbox : Checkbox :=
  {| cb_id := None; cb_checked := true; cb_boxed := true |}.

Definition listing (urls : list string) (next : NextControl) : Document :=
  {| searchTable := true; infoMessage := None; anchors := urls; nextControl := next |}.

Definition message (text : string) : Document :=
  {| searchTable := false; infoMessage := Some text; anchors := [];
     nextControl := Missing |}.

Definition noResultsPage : Document := message "  No results found for your query ".

Definition tooManyPage : Document :=
  message "Too many results found, please narrow the search".

Definition firstListing : Document := listing ["/detail/1"] Missing.

Definition threePages : Page :=
  {| url := baseUrl; settles := true; checkboxes := []; inputs := ∅;
     focus := None; selection := false; navigates := None;
     document := listing ["/detail/1"; "/detail/2"] Enabled;
     later := [listing ["/detail/3"] Enabled; listing ["/detail/4"] Disabled];
     events := [] |}.

Definition unlabelledPage : DetailPage :=
  {| dp_url := "/detail/7"; dp_loads := true; dp_panel := true;
     dp_rows := [[ {| classList := []; textContent := "Status"; highlight := None |};
                   {| classList := []; textContent := "Registered"; highlight := None |} ]] |}.

Definition lineBreak : string := String (ascii_of_nat 10) EmptyString.

Definition tabStop : string := String (ascii_of_nat 9) EmptyString.

Definition titled (text : string) : Cell :=
  {| classList := ["detail-title"]; textContent := text; highlight := None |}.

Definition valued (text : string) (mark : option string) : Cell :=
  {| classList := []; textContent := text; highlight := mark |}.

(** A label in which two phrases occur, the one that comes first in the
    table broken over two lines. *)
Definition twoPhraseLabel : Cell :=
  titled ("Trademark type /" ++ tabStop ++ "Application" ++ lineBreak ++ "   date ").

Definition wideRow : Row :=
  [ titled "Name/Title"; valued "prefix X suffix" (Some " X ");
    twoPhraseLabel; valued (" 12 " ++ lineBreak ++ "  345 ") (Some "  ") ].

Definition statusRow : Row := [ titled " Status: "; valued "   " (Some " ") ].

Definition nullOnlyPage : DetailPage :=
  {| dp_url := "/detail/8"; dp_loads := true; dp_panel := true;
     dp_rows := [[statusLabel; blankValue]] |}.


Definition ragged : string :=
  String (ascii_of_nat 9) ("Application" ++ String (ascii_of_nat 10) "   date ").

Definition boxlessCheckboxes : list Checkbox :=
  [ {| cb_id := Some "pwp_criteria_1"; cb_checked := true; cb_boxed := true |};
    {| cb_id := Some "pwp_criteria_0"; cb_checked := false; cb_boxed := false |};
    {| cb_id := Some "pwp_criteria_2"; cb_checked := true; cb_boxed := true |} ].

Definition endlessPage : Page :=
  {| url := baseUrl; settles := true; checkboxes := []; inputs := ∅;
     focus := None; selection := false; navigates := None;
     document := listing ["/detail/1"] Enabled; later := []; events := [] |}.


End Fixtures.

(** * Properties *)

(** ** Strings *)

Module JsStringFacts.
Import JsString.

Lemma startsWith_spec (s p : string) :
  startsWith s p = true <-> exists post, s = p ++ post.
Proof.
  revert s. induction p as [|a p IH]; intros s; simpl.
  - split; [intros _; by exists s | done].
  - destruct s as [|b s]; simpl.
    + split; [done | intros [post Hpost]; discriminate].
    + rewrite andb_true_iff, IH. split.
      * intros [Hab [post ->]]. apply Ascii.eqb_eq in Hab as ->. by exists post.
      * intros [post Hpost]. injection Hpost as -> ->.
        split; [apply Ascii.eqb_refl | by exists post].
Qed.

Lemma includes_spec (s p : string) :
  includes s p = true <-> Contains s p.
Proof.
  unfold Contains. induction s as [|b s IH].
  - simpl. rewrite orb_false_r, startsWith_spec. split.
    + intros [post Hpost]. by exists "", post.
    + intros [pre [post Hs]]. destruct pre; [by exists post | discriminate].
  - cbn [includes]. rewrite orb_true_iff, IH, startsWith_spec. split.
    + intros [[post Hpost] | [pre [post Hs]]].
      * by exists "", post.
      * exists (String b pre), post. simpl. by rewrite Hs.
    + intros [pre [post Hs]]. destruct pre as [|b' pre].
      * left. by exists post.
      * right. injection Hs as _ Hs. by exists pre, post.
Qed.

Lemma includes_false (s p : string) :
  includes s p = false <-> ~ Contains s p.
Proof.
  rewrite <- includes_spec. destruct (includes s p); split; congruence.
Qed.

Lemma truthy_spec (s : string) : truthy s = true <-> s <> "".
Proof. destruct s; simpl; split; congruence. Qed.

Lemma truthy_false (s : string) : truthy s = false <-> s = "".
Proof. destruct s; simpl; split; congruence. Qed.

End JsStringFacts.

(** ** The field extractor *)

Module ExtractFacts.
Import JsString JsStringFacts Extract Notions Fixtures.

(** [List.find] returns the first element that passes the test. *)
Lemma find_first {A} (f : A -> bool) (l : list A) (x : A) :
  List.find f l = Some x <->
  exists i, l !! i = Some x /\ f x = true /\
            forall j y, j < i -> l !! j = Some y -> f y = false.
Proof.
  induction l as [|a l IH]; simpl.
  - split; [done | intros [i [Hi _]]; by destruct i].
  - destruct (f a) eqn:Hfa.
    + split.
      * intros [= <-]. exists 0. repeat split; [done | lia].
      * intros [[|i] [Hi [Hfx Hbefore]]]; [by injection Hi as -> |].
        specialize (Hbefore 0 a ltac:(lia) eq_refl). congruence.
    + rewrite IH. split.
      * intros [i [Hi [Hfx Hbefore]]]. exists (S i). repeat split; [done .. |].
        intros [|j] y Hj Hy; [by injection Hy as <- |].
        apply (Hbefore j); [lia | done].
      * intros [[|i] [Hi [Hfx Hbefore]]]; [injection Hi as ->; congruence |].
        exists i. repeat split; [done .. |].
        intros j y Hj Hy. apply (Hbefore (S j)); [lia | done].
Qed.

Lemma find_nothing {A} (f : A -> bool) (l : list A) :
  List.find f l = None <-> forall x, x ∈ l -> f x = false.
Proof.
  induction l as [|a l IH]; simpl.
  - split; [intros _ x Hx; by apply elem_of_nil in Hx | done].
  - destruct (f a) eqn:Hfa.
    + split; [done | intros H; specialize (H a ltac:(left)); congruence].
    + rewrite IH. split.
      * intros H x [-> | Hx]%elem_of_cons; auto.
      * intros H x Hx. apply H. by right.
Qed.

Lemma findField_first (text fieldName : string) :
  findField text = Some fieldName <->
  exists i phrase, FirstMatch text i phrase fieldName.
Proof.
  unfold findField, FirstMatch. split.
  - destruct (List.find _ _) as [[phrase f]|] eqn:Hfind; [|done].
    intros [= <-]. apply find_first in Hfind as [i [Hi [Hinc Hbefore]]].
    exists i, phrase. repeat split; [done | by apply includes_spec |].
    intros j entry Hj Hentry. apply includes_false. by apply (Hbefore j).
  - intros [i [phrase [Hi [Hinc Hbefore]]]].
    assert (List.find (fun entry => includes text entry.1) fieldMappings
            = Some (phrase, fieldName)) as ->; [|done].
    apply find_first. exists i. repeat split; [done | by apply includes_spec |].
    intros j entry Hj Hentry. apply includes_false. by apply (Hbefore j).
Qed.

Lemma findField_none (text : string) :
  findField text = None <->
  forall entry, entry ∈ fieldMappings -> ~ Contains text entry.1.
Proof.
  unfold findField. rewrite fmap_None, find_nothing.
  split; intros H entry Hentry.
  - apply includes_false. by apply H.
  - apply includes_false. by apply H.
Qed.

(** Every name of the table is in the schema and is a truthy string. *)
Lemma findField_schema (text fieldName : string) :
  findField text = Some fieldName -> fieldName ∈ schema /\ truthy fieldName = true.
Proof.
  unfold findField. destruct (List.find _ _) as [[phrase f]|] eqn:Hfind; [|done].
  intros [= <-]. apply find_some in Hfind as [Hin _].
  simpl in Hin.
  repeat (destruct Hin as [[= <- <-] | Hin]; [split; [set_solver | done] |]).
  done.
Qed.

Lemma visitPair_matched (result : TrademarkData) (l v : Cell) (fieldName : string) :
  isDetailTitle l = true ->
  findField (labelTextOf l) = Some fieldName ->
  visitPair result (Some l) (Some v) = <[fieldName := resolveValue v]> result.
Proof.
  intros Htitle Hfield. unfold visitPair. rewrite Htitle, Hfield.
  by destruct (findField_schema _ _ Hfield) as [_ ->].
Qed.

Lemma visitPair_unmatched (result : TrademarkData) (l v : Cell) :
  findField (labelTextOf l) = None ->
  visitPair result (Some l) (Some v) = result.
Proof.
  intros Hfield. unfold visitPair. rewrite Hfield. by destruct (isDetailTitle l).
Qed.

Lemma resolveValue_shape (v : Cell) :
  resolveValue v = None \/ exists s, resolveValue v = Some s /\ s <> "".
Proof.
  unfold resolveValue.
  destruct (truthy (if truthy _ then _ else _)) eqn:Htruthy; [right | by left].
  eexists. split; [done | by apply truthy_spec].
Qed.

Definition WellShaped (rows : list Row) (result : TrademarkData) : Prop :=
  forall key value, result !! key = Some value -> Contributes rows key value.

Lemma visitPair_shaped (rows : list Row) (cells : Row) (i : nat)
    (result : TrademarkData) :
  WellShaped rows result -> cells ∈ rows -> Nat.even i = true ->
  WellShaped rows (visitPair result (cells !! i) (cells !! (i + 1))).
Proof.
  intros Hresult Hcells Heven. unfold visitPair.
  destruct (cells !! i) as [l|] eqn:Hl; [|done].
  destruct (cells !! (i + 1)) as [v|] eqn:Hv; [|done].
  destruct (isDetailTitle l) eqn:Htitle; [|done].
  destruct (findField (labelTextOf l)) as [fieldName|] eqn:Hfield; [|done].
  destruct (truthy fieldName); [|done].
  intros key value. rewrite lookup_insert. case_decide as Hkey.
  - intros [= <-]. subst key. by exists cells, i, l, v.
  - apply Hresult.
Qed.

Lemma evenOffsets_even (n : nat) :
  Forall (fun i => Nat.even i = true) (evenOffsets n).
Proof.
  apply Forall_forall. intros i Hi. unfold evenOffsets in Hi.
  apply list_elem_of_In, filter_In in Hi. tauto.
Qed.

Lemma visitRow_shaped (rows : list Row) (cells : Row) (result : TrademarkData) :
  WellShaped rows result -> cells ∈ rows -> WellShaped rows (visitRow result cells).
Proof.
  intros Hresult Hcells. unfold visitRow.
  pose proof (evenOffsets_even (List.length cells)) as Heven.
  revert result Hresult.
  induction Heven as [|i offsets Hi _ IH]; intros result Hresult; simpl; [done |].
  apply IH. by apply visitPair_shaped.
Qed.

Lemma getDetailInformation_shaped (rows : list Row) :
  WellShaped rows (getDetailInformation rows).
Proof.
  unfold getDetailInformation.
  assert (forall (visited : list Row) (result : TrademarkData),
             (forall cells, cells ∈ visited -> cells ∈ rows) ->
             WellShaped rows result ->
             WellShaped rows (foldl visitRow result visited)) as Hfold.
  { induction visited as [|cells visited IH]; intros result Hin Hresult; simpl;
      [done |].
    apply IH; [intros; apply Hin; by right |].
    apply visitRow_shaped; [done | apply Hin; by left]. }
  apply Hfold; [done | intros key value Hlookup; by rewrite lookup_empty in Hlookup].
Qed.

(** C10: every key of the record that extraction returns is one of the
    eight names of the schema, its value is a string that is not empty or
    null, and it was written by a cell of class detail-title that stands
    at an even offset of its row and has a cell right after it. *)
Theorem extracted_record_invariant (rows : list Row) (key : string)
    (value : option string) :
  getDetailInformation rows !! key = Some value ->
  key ∈ schema /\
  (value = None \/ exists s, value = Some s /\ s <> "") /\
  Contributes rows key value.
Proof.
  intros Hlookup.
  pose proof (getDetailInformation_shaped rows key value Hlookup) as Hfrom.
  destruct Hfrom as (cells & i & l & v & Hcells & Heven & Hl & Hv & Htitle
                     & Hfield & ->).
  split; [by apply (findField_schema (labelTextOf l)) | split].
  - apply resolveValue_shape.
  - by exists cells, i, l, v.
Qed.

Lemma extracted_record_invariant_witness :
  let rows := [[statusLabel; highlightedValue]] in
  getDetailInformation rows !! "status" = Some (Some "X") /\
  "status" ∈ schema /\
  Contributes rows "status" (Some "X").
Proof.
  intros rows.
  assert (getDetailInformation rows !! "status" = Some (Some "X")) as Hlookup
    by reflexivity.
  pose proof (extracted_record_invariant rows "status" (Some "X") Hlookup) as H.
  exact (conj Hlookup (conj (proj1 H) (proj2 (proj2 H)))).
Defined.

Lemma words_nonblank (c : ascii) (s : string) :
  isWhiteSpace c = false -> words (String c s) <> [].
Proof.
  intros Hc. cbn [words]. rewrite Hc. destruct s as [|d s]; [done |].
  destruct (isWhiteSpace d); [done |]. by destruct (words (String d s)).
Qed.

Lemma trimEnd_blank (s : string) : trimEnd s = "" <-> words s = [].
Proof.
  induction s as [|c s IH]; [done |]. cbn [trimEnd].
  destruct (isWhiteSpace c) eqn:Hc.
  - cbn [words]. rewrite Hc, <- IH. by destruct (trimEnd s).
  - split; [by destruct (trimEnd s) | intros Hw; by apply words_nonblank in Hw].
Qed.

Lemma trimEnd_keeps (c : ascii) (s : string) :
  isWhiteSpace c = false -> trimEnd (String c s) = String c (trimEnd s).
Proof. intros Hc. cbn [trimEnd]. rewrite Hc. by destruct (trimEnd s). Qed.

Lemma trimEnd_blank_head (c : ascii) (s : string) :
  isWhiteSpace c = true -> words s <> [] ->
  trimEnd (String c s) = String c (trimEnd s).
Proof.
  intros Hc Hw. cbn [trimEnd]. rewrite <- trimEnd_blank in Hw.
  by destruct (trimEnd s).
Qed.

Lemma collapse_trimEnd (s : string) (inRun : bool) :
  collapseFrom inRun (trimEnd s)
  = match words s with
    | [] => ""
    | ws => (if startsBlank s && negb inRun then " " else "") ++ unwords ws
    end.
Proof.
  revert inRun. induction s as [|c s IH]; intros inRun; [done |].
  destruct (isWhiteSpace c) eqn:Hc.
  - cbn [words startsBlank]. rewrite Hc.
    destruct (words s) as [|w ws] eqn:Hw.
    + apply trimEnd_blank in Hw. cbn [trimEnd]. by rewrite Hw, Hc.
    + rewrite trimEnd_blank_head by (done || congruence).
      cbn [collapseFrom]. rewrite Hc, (IH true), andb_false_r.
      by destruct inRun.
  - rewrite (trimEnd_keeps c s Hc). cbn [collapseFrom]. rewrite Hc, (IH false).
    cbn [words startsBlank]. rewrite Hc.
    destruct s as [|d s]; [done |]. cbn [startsBlank].
    destruct (isWhiteSpace d) eqn:Hd.
    + by destruct (words (String d s)) as [|w ws].
    + pose proof (words_nonblank d s Hd) as Hw.
      destruct (words (String d s)) as [|w ws]; [done |]. simpl. by destruct ws.
Qed.

Lemma words_trimStart (s : string) : words (trimStart s) = words s.
Proof.
  induction s as [|c s IH]; [done |]. cbn [trimStart].
  destruct (isWhiteSpace c) eqn:Hc; [| done]. cbn [words]. by rewrite Hc.
Qed.

Lemma trimStart_not_blank (s : string) : startsBlank (trimStart s) = false.
Proof.
  induction s as [|c s IH]; [done |]. cbn [trimStart].
  destruct (isWhiteSpace c) eqn:Hc; [done |]. simpl. by rewrite Hc.
Qed.

Lemma normalized_text_is_words (s : string) :
  replaceSpaces (trim s) = unwords (words s).
Proof.
  unfold replaceSpaces, trim. rewrite collapse_trimEnd, words_trimStart.
  rewrite trimStart_not_blank. by destruct (words s).
Qed.

Lemma words_not_empty (s : string) : Forall (fun w => w <> "") (words s).
Proof.
  induction s as [|c s IH]; [constructor |]. cbn [words].
  destruct (isWhiteSpace c); [done |].
  destruct s as [|d s]; [by repeat constructor |].
  destruct (isWhiteSpace d); [by constructor |].
  destruct (words (String d s)) as [|w ws]; [by repeat constructor |].
  apply Forall_cons in IH as [_ IH]. by constructor.
Qed.

Lemma unwords_truthy (w : string) (ws : list string) :
  w <> "" -> truthy (unwords (w :: ws)) = true.
Proof. destruct w; [done |]. by destruct ws. Qed.

Lemma selects_findField (l : Cell) (fieldName : string) :
  Selects l fieldName <-> findField (labelTextOf l) = Some fieldName.
Proof.
  unfold Selects, collapsedText, labelTextOf.
  by rewrite normalized_text_is_words, findField_first.
Qed.

Lemma isDetailTitle_spec (l : Cell) :
  isDetailTitle l = true <-> "detail-title" ∈ classList l.
Proof. unfold isDetailTitle. apply bool_decide_eq_true. Qed.

Lemma visitPair_other (result : TrademarkData) (cells : Row) (i : nat)
    (fieldName : string) :
  Nat.even i = true -> ~ Writes cells fieldName i ->
  visitPair result (cells !! i) (cells !! (i + 1)) !! fieldName = result !! fieldName.
Proof.
  intros Heven Hnot. unfold visitPair.
  destruct (cells !! i) as [l|] eqn:Hl; [| done].
  destruct (cells !! (i + 1)) as [v|] eqn:Hv; [| done].
  destruct (isDetailTitle l) eqn:Htitle; [| done].
  destruct (findField (labelTextOf l)) as [g|] eqn:Hfield; [| done].
  destruct (truthy g); [| done].
  apply lookup_insert_ne. intros ->. apply Hnot. by exists l, v.
Qed.

Lemma visitPair_keeps (result : TrademarkData) (lo vo : option Cell)
    (fieldName : string) :
  is_Some (result !! fieldName) -> is_Some (visitPair result lo vo !! fieldName).
Proof.
  intros Hsome. unfold visitPair.
  destruct lo as [l|], vo as [v|]; try done.
  destruct (isDetailTitle l); [| done].
  destruct (findField (labelTextOf l)) as [g|]; [| done].
  destruct (truthy g); [| done].
  rewrite lookup_insert. by case_decide.
Qed.

Lemma offsets_other (cells : Row) (offsets : list nat) (result : TrademarkData)
    (fieldName : string) :
  (forall j, j ∈ offsets -> Nat.even j = true /\ ~ Writes cells fieldName j) ->
  foldl (visitAt cells) result offsets !! fieldName = result !! fieldName.
Proof.
  revert result. induction offsets as [|j offsets IH]; intros result Hnot; [done |].
  cbn [foldl]. rewrite IH by (intros; apply Hnot; by right).
  destruct (Hnot j ltac:(left)) as [Heven Hj]. by apply visitPair_other.
Qed.

Lemma offsets_keep (cells : Row) (offsets : list nat) (result : TrademarkData)
    (fieldName : string) :
  is_Some (result !! fieldName) ->
  is_Some (foldl (visitAt cells) result offsets !! fieldName).
Proof.
  revert result. induction offsets as [|j offsets IH]; intros result Hsome; [done |].
  cbn [foldl]. by apply IH, visitPair_keeps.
Qed.

(** The offsets the loop takes, around an even one of them. *)
Lemma evenOffsets_split (n i : nat) :
  Nat.even i = true -> i < n ->
  exists after,
    evenOffsets n = (evenOffsets i ++ i :: after)%list /\
    forall j, j ∈ after -> i < j /\ Nat.even j = true.
Proof.
  intros Heven Hlt. unfold evenOffsets.
  replace n with (i + S (n - S i)) by lia.
  rewrite seq_app, List.filter_app. cbn [seq List.filter Nat.add]. rewrite Heven.
  eexists. split; [reflexivity |].
  intros j Hj. apply list_elem_of_In, filter_In in Hj as [Hj Hevenj].
  apply in_seq in Hj. split; [lia | done].
Qed.

Lemma visitRow_fold (result : TrademarkData) (cells : Row) :
  visitRow result cells = foldl (visitAt cells) result (evenOffsets (List.length cells)).
Proof. reflexivity. Qed.

Lemma visitRow_other (result : TrademarkData) (cells : Row) (fieldName : string) :
  (forall j, ~ Writes cells fieldName j) ->
  visitRow result cells !! fieldName = result !! fieldName.
Proof.
  intros Hnot. rewrite visitRow_fold. apply offsets_other. intros j Hj.
  split; [| apply Hnot].
  pose proof (evenOffsets_even (List.length cells)) as Hall.
  rewrite Forall_forall in Hall. by apply Hall.
Qed.

Lemma visitRow_keeps (result : TrademarkData) (cells : Row) (fieldName : string) :
  is_Some (result !! fieldName) -> is_Some (visitRow result cells !! fieldName).
Proof. rewrite visitRow_fold. apply offsets_keep. Qed.

(** A row in which the pair at the even offset [i] writes the field. *)
Lemma visitRow_writes (result : TrademarkData) (cells : Row) (i : nat) (l v : Cell)
    (fieldName : string) :
  Nat.even i = true -> cells !! i = Some l -> cells !! (i + 1) = Some v ->
  isDetailTitle l = true -> findField (labelTextOf l) = Some fieldName ->
  is_Some (visitRow result cells !! fieldName) /\
  ((forall j, i < j -> ~ Writes cells fieldName j) ->
   visitRow result cells !! fieldName = Some (resolveValue v)).
Proof.
  intros Heven Hl Hv Htitle Hfield.
  destruct (evenOffsets_split (List.length cells) i Heven) as (after & Hsplit & Hafter).
  { apply lookup_lt_Some in Hl. lia. }
  rewrite visitRow_fold, Hsplit, foldl_app. cbn [foldl].
  set (before := foldl (visitAt cells) result (evenOffsets i)).
  assert (visitAt cells before i !! fieldName = Some (resolveValue v)) as Hhere.
  { unfold visitAt. rewrite Hl, Hv, (visitPair_matched _ _ _ _ Htitle Hfield).
    apply lookup_insert_eq. }
  split.
  - apply offsets_keep. by rewrite Hhere.
  - intros Hlast. rewrite offsets_other; [done |].
    intros j Hj. destruct (Hafter j Hj) as [Hlt Hevenj]. split; [done |].
    by apply Hlast.
Qed.

Lemma rows_other (rows : list Row) (result : TrademarkData) (fieldName : string) :
  (forall cells j, cells ∈ rows -> ~ Writes cells fieldName j) ->
  foldl visitRow result rows !! fieldName = result !! fieldName.
Proof.
  revert result. induction rows as [|cells rows IH]; intros result Hnot; [done |].
  cbn [foldl]. rewrite IH by (intros; apply Hnot; by right).
  apply visitRow_other. intros j. apply Hnot. by left.
Qed.

Lemma rows_keep (rows : list Row) (result : TrademarkData) (fieldName : string) :
  is_Some (result !! fieldName) -> is_Some (foldl visitRow result rows !! fieldName).
Proof.
  revert result. induction rows as [|cells rows IH]; intros result Hsome; [done |].
  cbn [foldl]. by apply IH, visitRow_keeps.
Qed.

Lemma labelAt_writes (rows : list Row) (r i : nat) (l v : Cell) (fieldName : string) :
  LabelAt rows r i l v /\ Selects l fieldName <->
  exists cells, rows !! r = Some cells /\ Nat.even i = true /\
                cells !! i = Some l /\ cells !! (i + 1) = Some v /\
                isDetailTitle l = true /\
                findField (labelTextOf l) = Some fieldName.
Proof.
  unfold LabelAt. rewrite selects_findField. setoid_rewrite isDetailTitle_spec.
  split.
  - intros [(cells & ? & ? & ? & ? & ?) ?]. by exists cells.
  - intros (cells & ? & ? & ? & ? & ? & ?). split; [by exists cells | done].
Qed.

(** The record of a table in which the label at offset [i] of row [r]
    selects the field. *)
Lemma record_writes (rows : list Row) (r i : nat) (l v : Cell) (fieldName : string) :
  LabelAt rows r i l v -> Selects l fieldName ->
  is_Some (getDetailInformation rows !! fieldName) /\
  (LastFor rows fieldName r i ->
   getDetailInformation rows !! fieldName = Some (resolveValue v)).
Proof.
  intros Hat Hselects.
  destruct (proj1 (labelAt_writes rows r i l v fieldName) (conj Hat Hselects))
    as (cells & Hrow & Heven & Hl & Hv & Htitle & Hfield).
  assert (forall r' cells' j, LastFor rows fieldName r i ->
                              rows !! r' = Some cells' -> Writes cells' fieldName j ->
                              r' < r \/ (r' = r /\ j <= i)) as Hlater.
  { intros r' cells' j Hlast Hrow' (l' & v' & Hevenj & Hl' & Hv' & Htitle' & Hfield').
    apply (Hlast r' j l' v'); apply (labelAt_writes rows r' j l' v' fieldName).
    - by exists cells'.
    - by exists cells'. }
  unfold getDetailInformation.
  assert (foldl visitRow ∅ rows
          = foldl visitRow (visitRow (foldl visitRow ∅ (take r rows)) cells)
              (drop (S r) rows)) as ->.
  { rewrite <- (take_drop_middle rows r cells Hrow) at 1. by rewrite foldl_app. }
  set (before := foldl visitRow ∅ (take r rows)).
  destruct (visitRow_writes before cells i l v fieldName Heven Hl Hv Htitle Hfield)
    as [Hsome Hvalue].
  split; [by apply rows_keep |].
  intros Hlast. rewrite rows_other.
  - apply Hvalue. intros j Hj Hwrites.
    destruct (Hlater r cells j Hlast Hrow Hwrites) as [? | [_ ?]]; lia.
  - intros cells' j Hin Hwrites.
    apply list_elem_of_lookup in Hin as [k Hk]. rewrite lookup_drop in Hk.
    destruct (Hlater (S r + k) cells' j Hlast Hk Hwrites) as [? | [? _]]; lia.
Qed.

Lemma record_written (rows : list Row) (fieldName : string) :
  is_Some (getDetailInformation rows !! fieldName) ->
  exists r i l v, LabelAt rows r i l v /\ Selects l fieldName.
Proof.
  intros [value Hvalue].
  destruct (getDetailInformation_shaped rows fieldName value Hvalue)
    as (cells & i & l & v & Hcells & Heven & Hl & Hv & Htitle & Hfield & _).
  apply list_elem_of_lookup in Hcells as [r Hrow].
  exists r, i, l, v. apply labelAt_writes. by exists cells.
Qed.

Lemma firstMatch_unique (text : string) (i j : nat) (p q f g : string) :
  FirstMatch text i p f -> FirstMatch text j q g -> f = g.
Proof.
  intros Hf Hg.
  assert (findField text = Some f) as Hff by (apply findField_first; by exists i, p).
  assert (findField text = Some g) as Hfg by (apply findField_first; by exists j, q).
  congruence.
Qed.

Lemma noneLater_spec (rows : list Row) (fieldName : string) (r i : nat) :
  noneLater rows fieldName r i = true -> LastFor rows fieldName r i.
Proof.
  intros Hcheck r' i' l' v' Hat Hselects.
  destruct (proj1 (labelAt_writes rows r' i' l' v' fieldName) (conj Hat Hselects))
    as (cells & Hrow & Heven & Hl & Hv & Htitle & Hfield).
  unfold noneLater in Hcheck. rewrite forallb_forall in Hcheck.
  specialize (Hcheck r'). rewrite Hrow in Hcheck.
  assert (r' < List.length rows) as Hr by (by apply lookup_lt_Some in Hrow).
  specialize (Hcheck ltac:(apply in_seq; lia)).
  rewrite forallb_forall in Hcheck. specialize (Hcheck i').
  assert (i' < List.length cells) as Hi by (by apply lookup_lt_Some in Hl).
  specialize (Hcheck ltac:(apply in_seq; lia)).
  assert (writesAt cells fieldName i' = true) as Hw.
  { unfold writesAt. rewrite Heven, Hl, Hv, Htitle. simpl.
    by apply bool_decide_eq_true. }
  rewrite Hw in Hcheck. simpl in Hcheck.
  apply orb_true_iff in Hcheck as [Hlt | Hsame].
  - left. by apply Nat.ltb_lt.
  - right. apply andb_true_iff in Hsame as [Heq Hle].
    split; [by apply Nat.eqb_eq | by apply Nat.leb_le].
Qed.

(** C4: the record that extraction returns has a field exactly when the
    table has a label cell (a cell of class detail-title at an even offset
    of its row, with a cell right after it) that selects the field; a label
    selects the field of the first entry of the ordered table of phrases
    whose phrase occurs, as a substring, in its whitespace-collapsed text
    (its words with single spaces between them), so that a label in which
    several phrases occur gives one field only: the one that comes first
    in table order. *)
Theorem first_phrase_decides_field (rows : list Row) (fieldName : string) :
  (is_Some (getDetailInformation rows !! fieldName) <->
   exists r i l v, LabelAt rows r i l v /\ Selects l fieldName) /\
  (forall l other, Selects l fieldName -> Selects l other -> other = fieldName).
Proof.
  split; [split |].
  - apply record_written.
  - intros (r & i & l & v & Hat & Hselects).
    apply (record_writes rows r i l v fieldName Hat Hselects).
  - intros l other (i & p & Hf) (j & q & Hg). apply (firstMatch_unique _ _ _ _ _ _ _ Hg Hf).
Qed.

Lemma first_phrase_decides_field_witness :
  LabelAt [wideRow] 0 2 twoPhraseLabel (valued (" 12 " ++ lineBreak ++ "  345 ") (Some "  ")) /\
  Contains (collapsedText (textContent twoPhraseLabel)) "Trademark type" /\
  Selects twoPhraseLabel "applicationDate" /\
  is_Some (getDetailInformation [wideRow] !! "applicationDate") /\
  getDetailInformation [wideRow] !! "trademarkType" = None.
Proof.
  assert (LabelAt [wideRow] 0 2 twoPhraseLabel
            (valued (" 12 " ++ lineBreak ++ "  345 ") (Some "  "))) as Hat.
  { exists wideRow. repeat split. by left. }
  assert (Selects twoPhraseLabel "applicationDate") as Hselects.
  { exists 2, "Application date". split; [reflexivity | split].
    - apply includes_spec. reflexivity.
    - intros j entry Hj Hentry. apply includes_false.
      destruct j as [|[|j]]; [| | lia]; injection Hentry as <-; reflexivity. }
  split; [exact Hat | split; [apply includes_spec; reflexivity | split]];
    [exact Hselects | split; [| reflexivity]].
  apply (proj1 (first_phrase_decides_field [wideRow] "applicationDate")).
  exists 0, 2, twoPhraseLabel, (valued (" 12 " ++ lineBreak ++ "  345 ") (Some "  ")).
  by split.
Defined.

(** C5: in the record that extraction returns, the field that a label cell
    selects is present; and if no label after it selects the same field,
    its value is the one resolved from the cell right after that label: the
    trimmed text of the highlight span when there is one and that text is
    not empty, else the whitespace-collapsed text of the whole cell (its
    words with single spaces between them), and null when that is empty
    too. *)
Theorem matched_value_in_record (rows : list Row) (r i : nat) (l v : Cell)
    (fieldName : string) :
  LabelAt rows r i l v -> Selects l fieldName ->
  let written := getDetailInformation rows !! fieldName in
  let whole := collapsedText (textContent v) in
  is_Some written /\
  (LastFor rows fieldName r i ->
   (forall h, highlight v = Some h -> trim h <> "" -> written = Some (Some (trim h))) /\
   ((highlight v = None \/ exists h, highlight v = Some h /\ trim h = "") ->
    (whole <> "" -> written = Some (Some whole)) /\
    (whole = "" -> written = Some None))).
Proof.
  intros Hat Hselects written whole. subst written whole.
  destruct (record_writes rows r i l v fieldName Hat Hselects) as [Hsome Hvalue].
  split; [done |]. intros Hlast. rewrite (Hvalue Hlast). unfold collapsedText.
  rewrite <- normalized_text_is_words. split.
  - intros h Hh Hne. unfold resolveValue. rewrite Hh. simpl.
    apply truthy_spec in Hne. by rewrite !Hne.
  - intros Hno.
    assert (truthy (default "" (trim <$> highlight v)) = false) as Hfalsy.
    { destruct Hno as [-> | [h [-> Hh]]]; simpl; [done | by rewrite Hh]. }
    unfold resolveValue. rewrite Hfalsy. split.
    + intros Hne. apply truthy_spec in Hne. by rewrite Hne.
    + intros Hempty. apply truthy_false in Hempty. by rewrite Hempty.
Qed.

Lemma matched_value_in_record_witness :
  let rows := [wideRow; statusRow] in
  getDetailInformation rows !! "nameTitle" = Some (Some "X") /\
  getDetailInformation rows !! "applicationDate" = Some (Some "12 345") /\
  getDetailInformation rows !! "status" = Some None.
Proof.
  intros rows.
  assert (forall r i l v cells, rows !! r = Some cells -> cells !! i = Some l ->
                                cells !! (i + 1) = Some v -> Nat.even i = true ->
                                "detail-title" ∈ classList l ->
                                LabelAt rows r i l v) as Hat.
  { intros r i l v cells Hrow Hl Hv Heven Hclass. by exists cells. }
  assert (forall text f, findField (replaceSpaces (trim text)) = Some f ->
                         Selects (titled text) f) as Hselects.
  { intros text f Hf. by apply selects_findField. }
  split; [| split].
  - apply (proj1 (proj2 (matched_value_in_record rows 0 0 (titled "Name/Title")
                           (valued "prefix X suffix" (Some " X ")) "nameTitle"
                           (Hat 0 0 _ _ wideRow eq_refl eq_refl eq_refl eq_refl
                                ltac:(by left))
                           (Hselects "Name/Title" "nameTitle" eq_refl))
                    (noneLater_spec rows "nameTitle" 0 0 eq_refl)) " X ");
      [reflexivity | vm_compute; discriminate].
  - apply (proj2 (proj2 (matched_value_in_record rows 0 2 twoPhraseLabel
                           (valued (" 12 " ++ lineBreak ++ "  345 ") (Some "  "))
                           "applicationDate"
                           (Hat 0 2 _ _ wideRow eq_refl eq_refl eq_refl eq_refl
                                ltac:(by left))
                           (Hselects (textContent twoPhraseLabel) "applicationDate"
                                     eq_refl))
                    (noneLater_spec rows "applicationDate" 0 2 eq_refl)));
      [right; by exists "  " | vm_compute; discriminate].
  - apply (proj2 (proj2 (matched_value_in_record rows 1 0 (titled " Status: ")
                           (valued "   " (Some " ")) "status"
                           (Hat 1 0 _ _ statusRow eq_refl eq_refl eq_refl eq_refl
                                ltac:(by left))
                           (Hselects " Status: " "status" eq_refl))
                    (noneLater_spec rows "status" 1 0 eq_refl)));
      [right; by exists " " | reflexivity].
Defined.

(** Labels and plain values are read word by word: the label text that
    is matched is the words of the cell joined by single spaces, and so is
    the value of a cell without highlight, null when the cell has no word. *)
Theorem text_is_read_by_words (l v : Cell) :
  labelTextOf l = unwords (words (textContent l)) /\
  (forall l', words (textContent l') = words (textContent l) ->
              findField (labelTextOf l') = findField (labelTextOf l)) /\
  (highlight v = None ->
   resolveValue v = match words (textContent v) with
                    | [] => None
                    | ws => Some (unwords ws)
                    end).
Proof.
  unfold labelTextOf. split; [apply normalized_text_is_words | split].
  - intros l' Hwords. by rewrite !normalized_text_is_words, Hwords.
  - intros Hnone. unfold resolveValue. rewrite Hnone. simpl.
    rewrite normalized_text_is_words.
    pose proof (words_not_empty (textContent v)) as Hwords.
    destruct (words (textContent v)) as [|w ws]; [done |].
    apply Forall_cons in Hwords as [Hw _]. by rewrite (unwords_truthy w ws Hw).
Qed.

Lemma text_is_read_by_words_witness :
  words ragged = ["Application"; "date"] /\
  findField (labelTextOf {| classList := []; textContent := ragged; highlight := None |})
  = Some "applicationDate" /\
  resolveValue {| classList := []; textContent := ragged; highlight := None |}
  = Some "Application date".
Proof.
  pose proof (text_is_read_by_words
                {| classList := []; textContent := "Application date"; highlight := None |}
                {| classList := []; textContent := ragged; highlight := None |})
    as (_ & Hlabel & Hvalue).
  split; [reflexivity | split].
  - rewrite (Hlabel {| classList := []; textContent := ragged; highlight := None |});
      reflexivity.
  - rewrite Hvalue; reflexivity.
Defined.

(** A record never has more than the eight keys of the schema. *)
Theorem record_has_at_most_eight_keys (rows : list Row) :
  size (getDetailInformation rows) <= 8.
Proof.
  rewrite <- size_dom.
  transitivity (size (list_to_set schema : gset string)); [| by vm_compute].
  apply subseteq_size. intros key Hkey.
  apply elem_of_dom in Hkey as [value Hvalue].
  destruct (getDetailInformation_shaped rows key value Hvalue)
    as (cells & i & l & v & _ & _ & _ & _ & _ & Hfield & _).
  apply elem_of_list_to_set. by apply (findField_schema (labelTextOf l)).
Qed.

Lemma visitRow_pair (result : TrademarkData) (l v : Cell) :
  visitRow result [l; v] = visitPair result (Some l) (Some v).
Proof. reflexivity. Qed.

(** When a further row holds a matched label and its value, the record is
    the one of the rows before with that field overwritten: the last
    occurrence of a label decides, and no other field changes. *)
Theorem last_label_decides (rows : list Row) (l v : Cell) (fieldName : string) :
  isDetailTitle l = true ->
  findField (labelTextOf l) = Some fieldName ->
  getDetailInformation (rows ++ [[l; v]])
  = <[fieldName := resolveValue v]> (getDetailInformation rows).
Proof.
  intros Htitle Hfield. unfold getDetailInformation.
  rewrite foldl_app. cbn [foldl]. rewrite visitRow_pair.
  by apply visitPair_matched.
Qed.

Lemma last_label_decides_witness :
  getDetailInformation ([[statusLabel; plainValue]] ++ [[statusLabel; highlightedValue]])
  = <["status" := Some "X"]> (getDetailInformation [[statusLabel; plainValue]]).
Proof.
  exact (last_label_decides [[statusLabel; plainValue]] statusLabel highlightedValue
           "status" eq_refl eq_refl).
Defined.

(** A highlight span that holds white space only does not count: the
    text of the cell is taken. *)
Example blank_highlight_falls_back :
  resolveValue {| classList := []; textContent := " 12  345 "; highlight := Some "  " |}
  = Some "12 345".
Proof. reflexivity. Qed.

(** The two-row table of the specification's example. *)
Example extract_name_and_status :
  getDetailInformation
    [ [ {| classList := ["detail-title"]; textContent := "Name/Title"; highlight := None |};
        {| classList := []; textContent := "ACME"; highlight := None |} ];
      [ {| classList := ["detail-title"]; textContent := "Status"; highlight := None |};
        {| classList := []; textContent := "Registered"; highlight := None |} ] ]
  = {[ "nameTitle" := Some "ACME"; "status" := Some "Registered" ]}.
Proof. apply map_eq. intros key. vm_compute. reflexivity. Qed.

End ExtractFacts.

(** ** Dates *)

Module DateFacts.
Import JsString DateFns Cli Calendar Browser Crawler Notions Fixtures.
Local Open Scope Z_scope.

Definition yearStart (year : Z) : Z :=
  let y := year - 1 in 365 * y + y / 4 - y / 100 + y / 400.

Definition yearLength (year : Z) : Z := if isLeapYearIndex year then 366 else 365.

Lemma isLeapYearIndex_spec (year : Z) :
  isLeapYearIndex year = true <->
  year mod 400 = 0 \/ (year mod 4 = 0 /\ year mod 100 <> 0).
Proof.
  unfold isLeapYearIndex.
  rewrite orb_true_iff, andb_true_iff, negb_true_iff, !Z.eqb_eq, Z.eqb_neq. tauto.
Qed.

Lemma yearStart_succ (year : Z) :
  yearStart (year + 1) = yearStart year + yearLength year.
Proof.
  unfold yearStart, yearLength.
  destruct (isLeapYearIndex year) eqn:Hleap.
  - apply isLeapYearIndex_spec in Hleap. Z.div_mod_to_equations. lia.
  - assert (~ (year mod 400 = 0 \/ (year mod 4 = 0 /\ year mod 100 <> 0))) as Hno.
    { rewrite <- isLeapYearIndex_spec. congruence. }
    Z.div_mod_to_equations. lia.
Qed.

Lemma yearStart_mono (y1 y2 : Z) : y1 <= y2 -> yearStart y1 <= yearStart y2.
Proof. unfold yearStart. intros H. Z.div_mod_to_equations. lia. Qed.

Lemma dayNumber_split (year month day : Z) :
  dayNumber year month day = yearStart year + daysBeforeMonth year month + day.
Proof. reflexivity. Qed.

Lemma validDate_spec (year month day : Z) :
  validDate year month day = true <->
  0 < year /\ 1 <= month <= 12 /\ 1 <= day <= daysInMonth year month.
Proof. unfold validDate. rewrite !andb_true_iff, Z.ltb_lt, !Z.leb_le. tauto. Qed.

Lemma month_cases (month : Z) :
  1 <= month <= 12 ->
  month = 1 \/ month = 2 \/ month = 3 \/ month = 4 \/ month = 5 \/ month = 6 \/
  month = 7 \/ month = 8 \/ month = 9 \/ month = 10 \/ month = 11 \/ month = 12.
Proof. lia. Qed.

(** The months of a year lie one after the other. *)
Lemma daysBeforeMonth_next (year month : Z) :
  1 <= month <= 12 ->
  daysBeforeMonth year month + daysInMonth year month
  = if month =? 12 then yearLength year else daysBeforeMonth year (month + 1).
Proof.
  intros Hm. unfold yearLength.
  destruct (month_cases month Hm) as
    [-> | [-> | [-> | [-> | [-> | [-> | [-> | [-> | [-> | [-> | [-> | ->]]]]]]]]]]];
    unfold daysBeforeMonth, daysInMonth; simpl;
    destruct (isLeapYearIndex year); reflexivity.
Qed.

Lemma daysBeforeMonth_mono (year m1 m2 : Z) :
  1 <= m1 -> m1 <= m2 -> m2 <= 12 ->
  daysBeforeMonth year m1 <= daysBeforeMonth year m2.
Proof.
  intros H1 H12 H2.
  assert (1 <= m1 <= 12) as Hm1 by lia. assert (1 <= m2 <= 12) as Hm2 by lia.
  destruct (month_cases m1 Hm1) as
    [-> | [-> | [-> | [-> | [-> | [-> | [-> | [-> | [-> | [-> | [-> | ->]]]]]]]]]]];
    destruct (month_cases m2 Hm2) as
    [-> | [-> | [-> | [-> | [-> | [-> | [-> | [-> | [-> | [-> | [-> | ->]]]]]]]]]]];
    try lia; unfold daysBeforeMonth; destruct (isLeapYearIndex year); lia.
Qed.

Lemma daysBeforeMonth_bounds (year month : Z) :
  1 <= month <= 12 ->
  0 <= daysBeforeMonth year month /\
  daysBeforeMonth year month + daysInMonth year month <= yearLength year.
Proof.
  intros Hm. split.
  - change 0 with (daysBeforeMonth year 1). apply daysBeforeMonth_mono; lia.
  - rewrite daysBeforeMonth_next by done.
    destruct (Z.eqb_spec month 12) as [-> | Hne]; [lia |].
    transitivity (daysBeforeMonth year 12 + daysInMonth year 12).
    + pose proof (daysBeforeMonth_mono year (month + 1) 12).
      assert (0 <= daysInMonth year 12) by (by unfold daysInMonth). lia.
    + rewrite daysBeforeMonth_next by lia. done.
Qed.

(** Later dates have later day numbers. *)
Lemma dayNumber_lt (y1 m1 d1 y2 m2 d2 : Z) :
  validDate y1 m1 d1 = true -> validDate y2 m2 d2 = true ->
  dateLt (y1, m1, d1) (y2, m2, d2) ->
  dayNumber y1 m1 d1 < dayNumber y2 m2 d2.
Proof.
  intros (Hy1 & Hm1 & Hd1)%validDate_spec (Hy2 & Hm2 & Hd2)%validDate_spec Hlt.
  rewrite !dayNumber_split.
  pose proof (daysBeforeMonth_bounds y1 m1 Hm1) as [Hlo1 Hhi1].
  pose proof (daysBeforeMonth_bounds y2 m2 Hm2) as [Hlo2 Hhi2].
  destruct Hlt as [Hy | [-> [Hm | [-> Hd]]]].
  - pose proof (yearStart_succ y1). pose proof (yearStart_mono (y1 + 1) y2). lia.
  - pose proof (daysBeforeMonth_next y2 m1 Hm1) as Hnext.
    destruct (Z.eqb_spec m1 12); [lia |].
    pose proof (daysBeforeMonth_mono y2 (m1 + 1) m2). lia.
  - lia.
Qed.


Lemma dateLt_not_le (a b : Z * Z * Z) : dateLt b a -> ~ dateLe a b.
Proof.
  destruct a as [[y1 m1] d1], b as [[y2 m2] d2]. unfold dateLe, dateLt.
  intros Hlt [Hle | [= -> -> ->]]; lia.
Qed.

Lemma digitsUpTo_digit n acc c s :
  isDigit c = true ->
  digitsUpTo (S n) acc (String c s) = digitsUpTo n (10 * acc + digitValue c) s.
Proof. intros H. cbn [digitsUpTo]. by rewrite H. Qed.

Lemma parseNDigits_four (a b c d : ascii) (rest : string) :
  isDigit a = true -> isDigit b = true -> isDigit c = true -> isDigit d = true ->
  parseNDigits 4 (String a (String b (String c (String d rest))))
  = Some (1000 * digitValue a + 100 * digitValue b + 10 * digitValue c
          + digitValue d, rest).
Proof.
  intros Ha Hb Hc Hd. unfold parseNDigits. rewrite Ha.
  rewrite !digitsUpTo_digit by done. cbn [digitsUpTo].
  apply f_equal, (f_equal (fun v => (v, rest))). lia.
Qed.

Lemma parseNDigits_two (a b : ascii) (rest : string) :
  isDigit a = true -> isDigit b = true ->
  parseNDigits 2 (String a (String b rest))
  = Some (10 * digitValue a + digitValue b, rest).
Proof.
  intros Ha Hb. unfold parseNDigits. rewrite Ha.
  rewrite !digitsUpTo_digit by done. cbn [digitsUpTo].
  apply f_equal, (f_equal (fun v => (v, rest))). lia.
Qed.

Lemma parse_strict (s : string) :
  dateRegexTest s = true ->
  parse s = match fieldsOf s with
            | Some (y, m, d) => if validDate y m d then Some (timeOf y m d) else None
            | None => None
            end.
Proof.
  unfold dateRegexTest. intros H.
  do 10 (destruct s as [|? s];
    [cbn [matches] in H; rewrite ?andb_false_r in H; discriminate H |]).
  destruct s; [| cbn [matches] in H; rewrite ?andb_false_r in H; discriminate H].
  cbn [matches inClass] in H.
  rewrite !andb_true_iff in H.
  destruct H as (Hy1 & Hy2 & Hy3 & Hy4 & ->%Ascii.eqb_eq & Hm1 & Hm2
                 & ->%Ascii.eqb_eq & Hd1 & Hd2 & _).
  unfold parse. rewrite parseNDigits_four by done. cbn [mbind option_bind literal].
  rewrite Ascii.eqb_refl. cbn [mbind option_bind].
  rewrite parseNDigits_two by done. cbn [mbind option_bind literal].
  rewrite Ascii.eqb_refl. cbn [mbind option_bind].
  rewrite parseNDigits_two by done. cbn [mbind option_bind onlyWhiteSpace fieldsOf andb].
  reflexivity.
Qed.

Lemma calendarDate_parse (s : string) (y m d : Z) :
  calendarDate s = Some (y, m, d) ->
  validDate y m d = true /\ parse s = Some (timeOf y m d).
Proof.
  unfold calendarDate. destruct (dateRegexTest s) eqn:Hshape; [|done].
  rewrite (parse_strict s Hshape).
  destruct (fieldsOf s) as [[[y' m'] d']|]; [|done].
  destruct (validDate y' m' d') eqn:Hvalid; [|done].
  by intros [= <- <- <-].
Qed.

Lemma calendarDate_none (s : string) :
  dateRegexTest s = true -> calendarDate s = None -> parse s = None.
Proof.
  intros Hshape. unfold calendarDate. rewrite Hshape, (parse_strict s Hshape).
  destruct (fieldsOf s) as [[[y m] d]|]; [|done].
  by destruct (validDate y m d).
Qed.

Lemma timeOf_le (a b : Z) : a <= b <-> (a - 719163) * 86400000 <= (b - 719163) * 86400000.
Proof. lia. Qed.

Lemma checkDateRange_returns (opts : CrawlerOptions) (ts te : Z) :
  parse (startDate opts) = Some ts -> parse (endDate opts) = Some te -> ts <= te ->
  checkDateRange opts = Returned tt.
Proof.
  intros Hs He Hle. unfold checkDateRange. rewrite Hs, He. simpl.
  by destruct (Z.ltb_spec te ts); [lia |].
Qed.

Lemma checkDateRange_order (opts : CrawlerOptions) (ts te : Z) :
  parse (startDate opts) = Some ts -> parse (endDate opts) = Some te -> te < ts ->
  checkDateRange opts
  = Thrown (ConfigurationError "Start date must be before or equal to end date.").
Proof.
  intros Hs He Hlt. unfold checkDateRange. rewrite Hs, He. simpl.
  by destruct (Z.ltb_spec te ts); [| lia].
Qed.

Lemma checkDateRange_invalid (opts : CrawlerOptions) :
  parse (startDate opts) = None \/ parse (endDate opts) = None ->
  checkDateRange opts
  = Thrown (ConfigurationError "Invalid date format. Use YYYY-MM-DD.").
Proof.
  intros H. unfold checkDateRange.
  destruct H as [-> | ->]; simpl; [done | by rewrite orb_true_r].
Qed.

(** C3: the claim does not hold of the code.  The strings 2024-1-5 and
    2024-1-6 are malformed (not of the shape YYYY-MM-DD), and the claim
    asks for a configuration error; the check returns without throwing,
    and crawl goes on to run the engine. *)
Lemma malformed_date_accepted :
  dateRegexTest (startDate looseOptions) = false /\
  checkDateRange looseOptions = Returned tt /\
  (crawl idleEngine (newCrawler looseOptions)).1.1 = Returned [] /\
  ~ StatedDateClaim looseOptions.
Proof.
  split; [reflexivity | split; [reflexivity | split; [reflexivity |]]].
  intros [_ Hthrows]. destruct Hthrows as [e He]; [by left |].
  vm_compute in He. discriminate He.
Qed.

(** What the date check does: two well-formed YYYY-MM-DD calendar dates
    pass it when the first is not after the second and make it throw when
    it is; a string of the shape dddd-dd-dd that names no day of the
    calendar, and any other string that the date parser rejects, makes it
    throw as well; it passes exactly when the parser accepts both strings
    and the first time is not after the second; and when it throws, crawl
    ends with that error before the engine has done anything. *)
Theorem date_range_validation (engine : Crawler -> Crawler * list Event)
    (this : Crawler) :
  let opts := options this in
  (forall ds de,
      calendarDate (startDate opts) = Some ds ->
      calendarDate (endDate opts) = Some de ->
      dateLe ds de -> checkDateRange opts = Returned tt) /\
  (forall ds de,
      calendarDate (startDate opts) = Some ds ->
      calendarDate (endDate opts) = Some de ->
      dateLt de ds ->
      checkDateRange opts
      = Thrown (ConfigurationError "Start date must be before or equal to end date.")) /\
  (dateRegexTest (startDate opts) = true -> dateRegexTest (endDate opts) = true ->
   calendarDate (startDate opts) = None \/ calendarDate (endDate opts) = None ->
   checkDateRange opts
   = Thrown (ConfigurationError "Invalid date format. Use YYYY-MM-DD.")) /\
  (parse (startDate opts) = None \/ parse (endDate opts) = None ->
   checkDateRange opts
   = Thrown (ConfigurationError "Invalid date format. Use YYYY-MM-DD.")) /\
  (checkDateRange opts = Returned tt <->
   exists ts te, parse (startDate opts) = Some ts /\
                 parse (endDate opts) = Some te /\ ts <= te) /\
  (forall e, checkDateRange opts = Thrown e ->
             crawl engine this = (Thrown e, this, [])).
Proof.
  intros opts. repeat apply conj.
  - intros [[y1 m1] d1] [[y2 m2] d2] Hs He Hle.
    apply calendarDate_parse in Hs as [Hv1 Hs], He as [Hv2 He].
    apply (checkDateRange_returns opts _ _ Hs He). unfold timeOf.
    apply timeOf_le. destruct Hle as [Hlt | [= -> -> ->]]; [| lia].
    pose proof (dayNumber_lt _ _ _ _ _ _ Hv1 Hv2 Hlt). lia.
  - intros [[y1 m1] d1] [[y2 m2] d2] Hs He Hlt.
    apply calendarDate_parse in Hs as [Hv1 Hs], He as [Hv2 He].
    apply (checkDateRange_order opts _ _ Hs He). unfold timeOf.
    pose proof (dayNumber_lt _ _ _ _ _ _ Hv2 Hv1 Hlt). lia.
  - intros Hs He Hnone. apply checkDateRange_invalid.
    destruct Hnone as [H | H]; [left | right]; by apply calendarDate_none.
  - apply checkDateRange_invalid.
  - intros Hok.
    destruct (parse (startDate opts)) as [ts|] eqn:Hs;
      [| rewrite checkDateRange_invalid in Hok by (by left); discriminate Hok].
    destruct (parse (endDate opts)) as [te|] eqn:He;
      [| rewrite checkDateRange_invalid in Hok by (by right); discriminate Hok].
    exists ts, te. repeat split. destruct (Z.le_gt_cases ts te) as [Hle | Hgt]; [done |].
    rewrite (checkDateRange_order opts ts te) in Hok by done. discriminate Hok.
  - intros (ts & te & Hs & He & Hle). by apply (checkDateRange_returns opts ts te).
  - intros e He. unfold crawl. fold opts. by rewrite He.
Qed.

Lemma date_range_validation_witness :
  checkDateRange year2024 = Returned tt /\
  checkDateRange reversedOptions
  = Thrown (ConfigurationError "Start date must be before or equal to end date.") /\
  checkDateRange noDayOptions
  = Thrown (ConfigurationError "Invalid date format. Use YYYY-MM-DD.") /\
  crawl idleEngine (newCrawler noDayOptions)
  = (Thrown (ConfigurationError "Invalid date format. Use YYYY-MM-DD."),
     newCrawler noDayOptions, []).
Proof.
  assert (dateLt (2024, 1, 1) (2024, 12, 31)) as Hlt by (unfold dateLt; lia).
  pose proof (date_range_validation idleEngine (newCrawler year2024)) as Hordered.
  pose proof (date_range_validation idleEngine (newCrawler reversedOptions)) as Hreversed.
  pose proof (date_range_validation idleEngine (newCrawler noDayOptions)) as Hnoday.
  cbv zeta in Hordered, Hreversed, Hnoday.
  split; [| split; [| split]].
  - apply (proj1 Hordered (2024, 1, 1) (2024, 12, 31)); [reflexivity .. | by left].
  - apply (proj1 (proj2 Hreversed) (2024, 12, 31) (2024, 1, 1));
      [reflexivity .. | done].
  - apply (proj1 (proj2 (proj2 Hnoday))); [reflexivity .. | by left].
  - apply (proj2 (proj2 (proj2 (proj2 (proj2 Hnoday))))).
    apply (proj1 (proj2 (proj2 Hnoday))); [reflexivity .. | by left].
Defined.

End DateFacts.

(** ** The search form *)

Module FormFacts.
Import JsString JsStringFacts Browser Crawler Notions Fixtures.

Section Bind.
Context {A B : Type} (m : M A) (f : A -> M B) (page page' : Page).

(** A call that returns hands its value and the page to what follows; a
    call that throws ends the whole step. *)
Lemma bind_returned (a : A) :
  m page = (Returned a, page') -> (m ≫= f) page = f a page'.
Proof. intros H. unfold mbind, M_bind. by rewrite H. Qed.

Lemma bind_thrown (e : Error) :
  m page = (Thrown e, page') -> (m ≫= f) page = (Thrown e, page').
Proof. intros H. unfold mbind, M_bind. by rewrite H. Qed.

End Bind.

Lemma sameSession_refl (p : Page) : sameSession p p.
Proof. by repeat split. Qed.

Lemma sameSession_trans (p q r : Page) :
  sameSession p q -> sameSession q r -> sameSession p r.
Proof.
  unfold sameSession. intros (?&?&?&?&?&?&?&?) (?&?&?&?&?&?&?&?).
  repeat split; congruence.
Qed.

Lemma settled_idle (cb : Checkbox) : needsClick cb = false -> settled cb = cb.
Proof.
  unfold needsClick, settled. destruct cb as [[id|] checked boxed]; simpl; [|done].
  destruct (truthy id); simpl; [|done].
  rewrite negb_false_iff. intros ->%Bool.eqb_prop. done.
Qed.

Lemma settled_toggle (cb : Checkbox) : needsClick cb = true -> settled cb = toggle cb.
Proof.
  unfold needsClick, settled, toggle. destruct cb as [[id|] checked boxed]; simpl; [|done].
  destruct (truthy id); simpl; [|done].
  rewrite negb_true_iff. intros H. f_equal.
  destruct checked, (bool_decide (id ∈ targetCheckboxes)); done.
Qed.

Lemma configureCheckbox_idle (i : nat) (page : Page) (cb : Checkbox) :
  checkboxes page !! i = Some cb -> needsClick cb = false ->
  configureCheckbox i page = (Returned tt, page).
Proof.
  intros Hcb Hidle. unfold configureCheckbox.
  rewrite (bind_returned get _ page page page eq_refl), Hcb.
  unfold needsClick in Hidle. destruct (cb_id cb) as [id|]; [|done].
  destruct (truthy id); simpl in *; [|done]. by rewrite Hidle.
Qed.

Lemma configureCheckbox_click (i : nat) (page : Page) (cb : Checkbox) :
  checkboxes page !! i = Some cb -> needsClick cb = true -> cb_boxed cb = true ->
  configureCheckbox i page
  = (Returned tt,
     addEvent (WaitForTimeout 100)
       (withCheckboxes (alter toggle i (checkboxes page))
          (addEvent (ClickBox i) page))).
Proof.
  intros Hcb Hclick Hboxed. unfold configureCheckbox.
  rewrite (bind_returned get _ page page page eq_refl), Hcb.
  unfold needsClick in Hclick. destruct (cb_id cb) as [id|]; [|done].
  destruct (truthy id); simpl in *; [|done]. rewrite Hclick.
  unfold boxOf. rewrite Hboxed. reflexivity.
Qed.

Lemma configureCheckbox_missing_box (i : nat) (page : Page) (cb : Checkbox) :
  checkboxes page !! i = Some cb -> needsClick cb = true -> cb_boxed cb = false ->
  configureCheckbox i page = (Thrown (TypeError "box.click is not a function"), page).
Proof.
  intros Hcb Hclick Hboxed. unfold configureCheckbox.
  rewrite (bind_returned get _ page page page eq_refl), Hcb.
  unfold needsClick in Hclick. destruct (cb_id cb) as [id|]; [|done].
  destruct (truthy id); simpl in *; [|done]. rewrite Hclick.
  unfold boxOf. rewrite Hboxed. reflexivity.
Qed.

Lemma alter_middle {A} (f : A -> A) (l1 l2 : list A) (x : A) :
  alter f (List.length l1) (l1 ++ x :: l2)%list = (l1 ++ f x :: l2)%list.
Proof. rewrite alter_app_r_alt by lia. by rewrite Nat.sub_diag. Qed.

Lemma forEach_checkboxes (rest done_ : list Checkbox) (page : Page) :
  checkboxes page = (done_ ++ rest)%list ->
  (forall cb, cb ∈ rest -> needsClick cb = true -> cb_boxed cb = true) ->
  exists page',
    forEach configureCheckbox (seq (List.length done_) (List.length rest)) page
    = (Returned tt, page') /\
    checkboxes page' = (done_ ++ (settled <$> rest))%list /\
    events page' = (events page ++ clicksFrom (List.length done_) rest)%list /\
    sameSession page page'.
Proof.
  revert done_ page. induction rest as [|cb rest IH]; intros done_ page Hcbs Hboxed.
  - exists page. simpl. rewrite !app_nil_r. rewrite app_nil_r in Hcbs.
    split; [done | split; [done | split; [done | apply sameSession_refl]]].
  - assert (checkboxes page !! List.length done_ = Some cb) as Hcb.
    { rewrite Hcbs. by apply list_lookup_middle. }
    cbn [List.length seq forEach clicksFrom].
    destruct (needsClick cb) eqn:Hclick.
    + specialize (Hboxed cb ltac:(left) Hclick) as Hbox.
      set (page1 := addEvent (WaitForTimeout 100)
                      (withCheckboxes (alter toggle (List.length done_) (checkboxes page))
                         (addEvent (ClickBox (List.length done_)) page))).
      destruct (IH (done_ ++ [settled cb])%list page1) as (page' & Hrun & Hcbs' & Hev & Hsame).
      { simpl. rewrite Hcbs, <- app_assoc. simpl.
        rewrite (settled_toggle cb Hclick).
        by rewrite alter_middle. }
      { intros cb' Hin. apply Hboxed. by right. }
      exists page'. rewrite length_app in Hrun, Hev. simpl in Hrun, Hev.
      rewrite Nat.add_1_r in Hrun, Hev.
      rewrite (bind_returned _ _ page page1 tt (configureCheckbox_click _ _ _ Hcb Hclick Hbox)).
      repeat split; try apply Hsame.
      * exact Hrun.
      * by rewrite Hcbs', <- app_assoc.
      * rewrite Hev. simpl. by rewrite <- !app_assoc.
    + destruct (IH (done_ ++ [settled cb])%list page) as (page' & Hrun & Hcbs' & Hev & Hsame).
      { rewrite Hcbs, <- app_assoc. simpl. by rewrite (settled_idle cb Hclick). }
      { intros cb' Hin. apply Hboxed. by right. }
      exists page'. rewrite length_app in Hrun, Hev. simpl in Hrun, Hev.
      rewrite Nat.add_1_r in Hrun, Hev.
      rewrite (bind_returned _ _ page page tt (configureCheckbox_idle _ _ _ Hcb Hclick)).
      repeat split; try apply Hsame.
      * exact Hrun.
      * by rewrite Hcbs', <- app_assoc.
      * by rewrite Hev.
Qed.

Lemma configureCheckboxes_spec (page : Page) :
  (forall cb, cb ∈ checkboxes page -> needsClick cb = true -> cb_boxed cb = true) ->
  exists page',
    configureCheckboxes page = (Returned tt, page') /\
    checkboxes page' = settled <$> checkboxes page /\
    events page' = (events page ++ clicksFrom 0 (checkboxes page))%list /\
    sameSession page page'.
Proof.
  intros Hboxed. unfold configureCheckboxes.
  rewrite (bind_returned get _ page page page eq_refl).
  by apply (forEach_checkboxes (checkboxes page) [] page).
Qed.

Lemma clicksFrom_click (k j : nat) (cbs : list Checkbox) :
  ClickBox j ∈ clicksFrom k cbs <->
  exists i cb, j = k + i /\ cbs !! i = Some cb /\ needsClick cb = true.
Proof.
  revert k. induction cbs as [|cb cbs IH]; intros k; simpl.
  - split; [by intros ?%elem_of_nil | by intros (i & cb & _ & ? & _)].
  - rewrite elem_of_app, IH. split.
    + intros [Hhere | (i & cb' & -> & Hi & Hclick)].
      * destruct (needsClick cb) eqn:Hclick; [| by apply elem_of_nil in Hhere].
        apply elem_of_cons in Hhere as [[= ->] | Hhere].
        -- exists 0, cb. split; [lia | done].
        -- apply elem_of_cons in Hhere as [? | ?%elem_of_nil]; done.
      * exists (S i), cb'. split; [lia | done].
    + intros ([|i] & cb' & -> & Hi & Hclick).
      * injection Hi as <-. left. rewrite Hclick, Nat.add_0_r. by left.
      * right. exists i, cb'. split; [lia | done].
Qed.

Lemma inputDateValue_spec (selector value old : string) (page : Page) :
  inputs page !! selector = Some old ->
  exists page',
    inputDateValue selector value page = (Returned tt, page') /\
    inputs page' = <[selector := value]> (inputs page) /\
    events page' = (events page ++ dateEvents selector value)%list /\
    checkboxes page' = checkboxes page /\ settles page' = settles page /\
    navigates page' = navigates page /\ document page' = document page /\
    later page' = later page /\ url page' = url page.
Proof.
  intros Hold. eexists. split.
  - unfold inputDateValue, click, press, type, waitForTimeout.
    unfold mbind, M_bind, get, emit, setInput. cbn -[lookup insert].
    rewrite Hold. cbn -[lookup insert].
    rewrite lookup_insert_eq. cbn -[lookup insert]. reflexivity.
  - cbn -[lookup insert]. rewrite insert_insert_eq, <- !app_assoc. by repeat split.
Qed.

(** What [executeSearch] does once both dates are typed. *)
Definition searchTail : M unit :=
  clickAndNavigate ".ui-button-secondary .ui-clickable" ;;
  waitForOutcome ;;
  errorText ← evalInfoMessage;
  if optIncludes errorText "no results found"
  then throw (NonRetryableError "No results found for the given criteria")
  else if optIncludes errorText "too many results found"
  then throw (NonRetryableError
                "Too many results found. Please narrow your search criteria")
  else mret tt.

Lemma executeSearch_form (opts : CrawlerOptions) (page : Page) :
  FormReady page ->
  exists filled,
    executeSearch opts page = searchTail filled /\
    inputs filled = <["#attribute_date_to" := startDate opts]>
                      (<["#attribute_date_from" := endDate opts]> (inputs page)) /\
    checkboxes filled = settled <$> checkboxes page /\
    events filled = (events page ++ [searchLog opts]
                     ++ clicksFrom 0 (checkboxes page)
                     ++ dateEvents "#attribute_date_from" (endDate opts)
                     ++ dateEvents "#attribute_date_to" (startDate opts))%list /\
    navigates filled = navigates page /\ later filled = later page /\
    document filled = document page.
Proof.
  intros (Hsettles & Hboxed & [oldFrom HoldFrom] & [oldTo HoldTo]).
  set (page1 := addEvent (searchLog opts) page).
  destruct (configureCheckboxes_spec page1 Hboxed)
    as (page2 & Hrun2 & Hcbs2 & Hev2 & Hsame2).
  destruct Hsame2 as (Hurl2 & Hsettles2 & Hinputs2 & _ & _ & Hnav2 & Hdoc2 & Hlater2).
  destruct (inputDateValue_spec "#attribute_date_from" (endDate opts) oldFrom page2)
    as (page3 & Hrun3 & Hinputs3 & Hev3 & Hcbs3 & _ & Hnav3 & Hdoc3 & Hlater3 & _).
  { by rewrite <- Hinputs2. }
  destruct (inputDateValue_spec "#attribute_date_to" (startDate opts) oldTo page3)
    as (page4 & Hrun4 & Hinputs4 & Hev4 & Hcbs4 & _ & Hnav4 & Hdoc4 & Hlater4 & _).
  { rewrite Hinputs3, lookup_insert_ne by done. by rewrite <- Hinputs2. }
  exists page4. split.
  - unfold executeSearch.
    rewrite (bind_returned (emit (searchLog opts)) _ page page1 tt eq_refl).
    rewrite (bind_returned _ _ page1 page1 tt).
    2:{ unfold waitForContainer. rewrite (bind_returned get _ _ _ _ eq_refl).
        simpl. by rewrite Hsettles. }
    rewrite (bind_returned _ _ _ _ _ Hrun2), (bind_returned _ _ _ _ _ Hrun3),
      (bind_returned _ _ _ _ _ Hrun4).
    reflexivity.
  - rewrite Hinputs4, Hinputs3, <- Hinputs2, Hcbs4, Hcbs3, Hcbs2, Hev4, Hev3, Hev2,
      Hnav4, Hnav3, <- Hnav2, Hlater4, Hlater3, <- Hlater2, Hdoc4, Hdoc3, <- Hdoc2.
    simpl. rewrite <- !app_assoc. by repeat split.
Qed.

Lemma searchTail_frame (page : Page) :
  inputs (searchTail page).2 = inputs page /\
  checkboxes (searchTail page).2 = checkboxes page /\
  events (searchTail page).2 = (events page ++ [submitClick])%list.
Proof.
  unfold searchTail, clickAndNavigate, waitForOutcome, evalInfoMessage, throw.
  unfold mbind, M_bind, mret, M_ret, get, emit, setDocuments. cbn.
  destruct (navigates page) as [[|d ds]|]; cbn; [| | done].
  - done.
  - destruct (searchTable d || _); cbn; [| done].
    by repeat (destruct (optIncludes _ _); cbn).
Qed.

Lemma searchTail_outcome (page : Page) (d : Document) (ds : list Document) :
  navigates page = Some (d :: ds) ->
  searchTable d = true \/ is_Some (infoMessage d) ->
  (searchTail page).1 =
    if optIncludes (normalized d) "no results found" then Thrown noResults
    else if optIncludes (normalized d) "too many results found"
         then Thrown tooManyResults
         else Returned tt.
Proof.
  intros Hnav Hvisible.
  unfold searchTail, clickAndNavigate, waitForOutcome, evalInfoMessage, throw.
  unfold mbind, M_bind, mret, M_ret, get, emit, setDocuments. cbn.
  rewrite Hnav. cbn.
  assert (searchTable d || bool_decide (is_Some (infoMessage d)) = true) as ->.
  { destruct Hvisible as [-> | Hmsg]; [done |].
    rewrite (bool_decide_eq_true_2 _ Hmsg). apply orb_true_r. }
  cbn. fold (normalized d).
  by repeat (case_match; cbn).
Qed.

Lemma typed_app (evs1 evs2 : list Event) :
  typed (evs1 ++ evs2)%list = (typed evs1 ++ typed evs2)%list.
Proof. apply omap_app. Qed.

Lemma typed_clicksFrom (i : nat) (cbs : list Checkbox) : typed (clicksFrom i cbs) = [].
Proof.
  revert i. induction cbs as [|cb cbs IH]; intros i; simpl; [done |].
  rewrite typed_app, IH. by destruct (needsClick cb).
Qed.

(** C1: when the form is there (the page settles, every checkbox that has
    to be flipped has its box, both date inputs exist), the search step
    types the end date into #attribute_date_from and the start date into
    #attribute_date_to, in that order and nothing else, and these are the
    values the two inputs hold when the step ends, however it ends. *)
Theorem dates_are_typed_swapped (opts : CrawlerOptions) (page : Page) :
  FormReady page ->
  let page' := (executeSearch opts page).2 in
  inputs page' !! "#attribute_date_to" = Some (startDate opts) /\
  inputs page' !! "#attribute_date_from" = Some (endDate opts) /\
  typed (events page')
  = (typed (events page)
     ++ [("#attribute_date_from", endDate opts);
         ("#attribute_date_to", startDate opts)])%list.
Proof.
  intros Hready page'. subst page'.
  destruct (executeSearch_form opts page Hready)
    as (filled & -> & Hinputs & _ & Hev & _).
  destruct (searchTail_frame filled) as (-> & _ & ->).
  rewrite Hinputs, Hev. split; [| split].
  - apply lookup_insert_eq.
  - rewrite lookup_insert_ne by done. apply lookup_insert_eq.
  - rewrite !typed_app, typed_clicksFrom. cbn. by rewrite app_nil_r.
Qed.

Lemma formPage_ready (response : option (list Document)) :
  FormReady (formPage someCheckboxes response).
Proof.
  split; [reflexivity | split; [| split; by eexists]].
  intros cb Hcb Hclick. simpl in Hcb.
  repeat (apply elem_of_cons in Hcb as [-> | Hcb]; [done |]).
  by apply elem_of_nil in Hcb.
Qed.

Lemma dates_are_typed_swapped_witness :
  let page := formPage someCheckboxes (Some [listing ["/detail/1"] Missing]) in
  FormReady page /\
  inputs (executeSearch year2024 page).2 !! "#attribute_date_to" = Some "2024-01-01" /\
  inputs (executeSearch year2024 page).2 !! "#attribute_date_from" = Some "2024-12-31".
Proof.
  intros page.
  pose proof (dates_are_typed_swapped year2024 page (formPage_ready _)) as H.
  exact (conj (formPage_ready _) (conj (proj1 H) (proj1 (proj2 H)))).
Defined.

(** C2: when the form is there and the submission leads to a document that
    shows the results table or an informational message, the search step
    throws a NonRetryableError if the lower-cased, trimmed text of the
    message contains "no results found", throws a NonRetryableError if it
    contains "too many results found", and returns without throwing in
    every other case: a message with another text, or no message. *)
Theorem search_outcome_classified (opts : CrawlerOptions) (page : Page)
    (d : Document) (ds : list Document) :
  FormReady page ->
  navigates page = Some (d :: ds) ->
  searchTable d = true \/ is_Some (infoMessage d) ->
  let outcome := (executeSearch opts page).1 in
  (forall text, normalized d = Some text -> Contains text "no results found" ->
                outcome = Thrown noResults) /\
  (forall text, normalized d = Some text -> Contains text "too many results found" ->
                exists reason, outcome = Thrown (NonRetryableError reason)) /\
  ((forall text, normalized d = Some text ->
                 ~ Contains text "no results found" /\
                 ~ Contains text "too many results found") ->
   outcome = Returned tt).
Proof.
  intros Hready Hnav Hvisible outcome. subst outcome.
  destruct (executeSearch_form opts page Hready)
    as (filled & -> & _ & _ & _ & Hnav' & _).
  rewrite (searchTail_outcome filled d ds) by (by rewrite ?Hnav'). split; [| split].
  - intros text -> Hnone. simpl. apply includes_spec in Hnone. by rewrite Hnone.
  - intros text -> Hmany. simpl. apply includes_spec in Hmany. rewrite Hmany.
    destruct (includes text "no results found"); by eexists.
  - intros Hother. destruct (normalized d) as [text|]; [| done].
    destruct (Hother text eq_refl) as [Hnone%includes_false Hmany%includes_false].
    simpl. by rewrite Hnone, Hmany.
Qed.

Lemma search_outcome_classified_witness :
  (executeSearch year2024 (formPage someCheckboxes (Some [noResultsPage]))).1
  = Thrown noResults /\
  (exists reason,
      (executeSearch year2024 (formPage someCheckboxes (Some [tooManyPage]))).1
      = Thrown (NonRetryableError reason)) /\
  (executeSearch year2024 (formPage someCheckboxes (Some [firstListing]))).1
  = Returned tt.
Proof.
  assert (forall text, is_Some (infoMessage (message text))) as Hshown
    by (intros text; by eexists).
  split; [| split].
  - apply (proj1 (search_outcome_classified year2024
                    (formPage someCheckboxes (Some [noResultsPage])) noResultsPage []
                    (formPage_ready _) eq_refl (or_intror (Hshown _)))
             "no results found for your query"); [reflexivity |].
    apply includes_spec. reflexivity.
  - apply (proj1 (proj2 (search_outcome_classified year2024
                    (formPage someCheckboxes (Some [tooManyPage])) tooManyPage []
                    (formPage_ready _) eq_refl (or_intror (Hshown _))))
             "too many results found, please narrow the search"); [reflexivity |].
    apply includes_spec. reflexivity.
  - apply (proj2 (proj2 (search_outcome_classified year2024
                    (formPage someCheckboxes (Some [firstListing])) firstListing []
                    (formPage_ready _) eq_refl (or_introl eq_refl)))).
    intros text Htext. discriminate Htext.
Defined.

(** A checked checkbox without an id is not on the allow-list and stays
    checked. *)
Lemma anonymous_checkbox_stays_checked :
  configureCheckboxes (formPage [anonymousCheckbox] None)
  = (Returned tt, formPage [anonymousCheckbox] None) /\
  ~ StatedCheckboxClaim (formPage [anonymousCheckbox] None).
Proof.
  split; [reflexivity |].
  intros Hclaim.
  specialize (Hclaim _ eq_refl anonymousCheckbox ltac:(left)). discriminate Hclaim.
Qed.

(** C8, as the code has it: when every checkbox that has to be flipped has
    its box, the configuration returns; afterwards a checkbox with a
    non-empty id is checked exactly when its id is on the allow-list, and a
    checkbox without an id (or with an empty one) is as it was; the box of a
    checkbox is clicked exactly when the checkbox has a non-empty id and its
    state differed from the target, each click followed by a pause of
    100 ms; nothing else of the page changes. *)
Theorem checkboxes_configured (page : Page) :
  (forall cb, cb ∈ checkboxes page -> needsClick cb = true -> cb_boxed cb = true) ->
  exists page',
    configureCheckboxes page = (Returned tt, page') /\
    checkboxes page' = settled <$> checkboxes page /\
    (forall i cb, checkboxes page !! i = Some cb ->
       exists cb', checkboxes page' !! i = Some cb' /\
         cb_id cb' = cb_id cb /\
         (forall id, cb_id cb = Some id -> id <> "" ->
                     cb_checked cb' = bool_decide (id ∈ targetCheckboxes)) /\
         (cb_id cb = None \/ cb_id cb = Some "" -> cb' = cb)) /\
    events page' = (events page ++ clicksFrom 0 (checkboxes page))%list /\
    (forall i, ClickBox i ∈ clicksFrom 0 (checkboxes page) <->
               exists cb id, checkboxes page !! i = Some cb /\ cb_id cb = Some id /\
                             id <> "" /\
                             cb_checked cb <> bool_decide (id ∈ targetCheckboxes)) /\
    sameSession page page'.
Proof.
  intros Hboxed.
  destruct (configureCheckboxes_spec page Hboxed) as (page' & Hrun & Hcbs & Hev & Hsame).
  exists page'. repeat apply conj; try done; try apply Hsame.
  - intros i cb Hcb. exists (settled cb). rewrite Hcbs, list_lookup_fmap, Hcb.
    split; [done |]. unfold settled.
    destruct cb as [[id|] checked boxed]; simpl.
    + destruct (truthy id) eqn:Hid; simpl; (split; [done |]).
      * split; [by intros ? [= <-] |]. intros [[=] | [= ->]]. discriminate Hid.
      * apply truthy_false in Hid as ->. split; [| done].
        by intros ? [= <-] Hne.
    + split; [done |]. split; [| done]. by intros ? [=].
  - intros i. rewrite clicksFrom_click. split.
    + intros (i' & cb & -> & Hcb & Hclick). unfold needsClick in Hclick.
      destruct (cb_id cb) as [id|] eqn:Hid; [| done].
      apply andb_true_iff in Hclick as [Htruthy Hdiff].
      exists cb, id. split; [done | split; [done | split]].
      * by apply truthy_spec.
      * intros Heq. rewrite Heq in Hdiff. by rewrite Bool.eqb_reflx in Hdiff.
    + intros (cb & id & Hcb & Hid & Hne & Hdiff).
      exists i, cb. split; [done | split; [done |]]. unfold needsClick. rewrite Hid.
      apply truthy_spec in Hne as ->. simpl. apply negb_true_iff.
      by apply Bool.eqb_false_iff.
Qed.

Lemma checkboxes_configured_witness :
  exists page',
    configureCheckboxes (formPage someCheckboxes None) = (Returned tt, page') /\
    cb_checked <$> checkboxes page' = [true; false; true; false] /\
    events page' = [ClickBox 0; WaitForTimeout 100; ClickBox 1; WaitForTimeout 100].
Proof.
  assert (forall cb, cb ∈ checkboxes (formPage someCheckboxes None) ->
                     needsClick cb = true -> cb_boxed cb = true) as Hboxed
    by apply (formPage_ready None).
  destruct (checkboxes_configured (formPage someCheckboxes None) Hboxed)
    as (page' & Hrun & Hcbs & _ & Hev & _).
  exists page'. split; [exact Hrun | split].
  - rewrite Hcbs. reflexivity.
  - rewrite Hev. reflexivity.
Defined.

(** A checkbox that has to be flipped and has no box makes the
    configuration throw: there is no click method on the handle. *)
Remark configureCheckboxes_missing_box :
  (configureCheckboxes
     (formPage [{| cb_id := Some "pwp_criteria_0"; cb_checked := false;
                   cb_boxed := false |}] None)).1
  = Thrown (TypeError "box.click is not a function").
Proof. reflexivity. Qed.

Lemma settled_needs_no_click (cb : Checkbox) : needsClick (settled cb) = false.
Proof.
  unfold needsClick, settled. destruct cb as [[id|] checked boxed]; simpl; [| done].
  destruct (truthy id) eqn:Hid; simpl; rewrite ?Hid; simpl; [| done].
  by rewrite Bool.eqb_reflx.
Qed.

Lemma forEach_idle (indices : list nat) (page : Page) :
  (forall cb, cb ∈ checkboxes page -> needsClick cb = false) ->
  forEach configureCheckbox indices page = (Returned tt, page).
Proof.
  intros Hidle. induction indices as [|i indices IH]; [done |]. cbn [forEach].
  destruct (checkboxes page !! i) as [cb|] eqn:Hcb.
  - rewrite (bind_returned _ _ page page tt
               (configureCheckbox_idle i page cb Hcb
                  (Hidle cb (list_elem_of_lookup_2 _ _ _ Hcb)))).
    apply IH.
  - rewrite (bind_returned _ _ page page tt); [apply IH |].
    unfold configureCheckbox. rewrite (bind_returned get _ page page page eq_refl).
    by rewrite Hcb.
Qed.

(** Configuring the checkboxes a second time changes nothing: no click,
    no pause, the same page. *)
Theorem configuring_twice_is_once (page : Page) :
  (forall cb, cb ∈ checkboxes page -> needsClick cb = true -> cb_boxed cb = true) ->
  exists page',
    configureCheckboxes page = (Returned tt, page') /\
    configureCheckboxes page' = (Returned tt, page').
Proof.
  intros Hboxed.
  destruct (configureCheckboxes_spec page Hboxed) as (page' & Hrun & Hcbs & _).
  exists page'. split; [done |]. unfold configureCheckboxes.
  rewrite (bind_returned get _ page' page' page' eq_refl).
  apply forEach_idle. intros cb Hcb. rewrite Hcbs in Hcb.
  apply list_elem_of_fmap in Hcb as [cb0 [-> _]]. apply settled_needs_no_click.
Qed.

Lemma configuring_twice_is_once_witness :
  exists page',
    configureCheckboxes (formPage someCheckboxes None) = (Returned tt, page') /\
    configureCheckboxes page' = (Returned tt, page').
Proof.
  apply (configuring_twice_is_once (formPage someCheckboxes None)).
  apply (formPage_ready None).
Defined.

Lemma forEach_app {A} (body : A -> M unit) (l1 l2 : list A) (page : Page) :
  forEach body (l1 ++ l2) page = (forEach body l1 ≫= fun _ => forEach body l2) page.
Proof.
  revert page. induction l1 as [|x l1 IH]; intros page; [done |].
  cbn [app forEach]. unfold mbind, M_bind in *.
  destruct (body x page) as [[[] | e |] page1]; [apply IH | done | done].
Qed.

(** The loop over the first checkboxes of a form, those after them left
    for later. *)
Lemma forEach_checkboxes_upto (rest done_ tail : list Checkbox) (page : Page) :
  checkboxes page = (done_ ++ rest ++ tail)%list ->
  (forall cb, cb ∈ rest -> needsClick cb = true -> cb_boxed cb = true) ->
  exists page',
    forEach configureCheckbox (seq (List.length done_) (List.length rest)) page
    = (Returned tt, page') /\
    checkboxes page' = (done_ ++ (settled <$> rest) ++ tail)%list /\
    events page' = (events page ++ clicksFrom (List.length done_) rest)%list /\
    sameSession page page'.
Proof.
  revert done_ page. induction rest as [|cb rest IH]; intros done_ page Hcbs Hboxed.
  - exists page. simpl. rewrite app_nil_r.
    split; [done | split; [done | split; [done | apply sameSession_refl]]].
  - assert (checkboxes page !! List.length done_ = Some cb) as Hcb.
    { rewrite Hcbs. by apply list_lookup_middle. }
    cbn [List.length seq forEach clicksFrom].
    destruct (needsClick cb) eqn:Hclick.
    + specialize (Hboxed cb ltac:(left) Hclick) as Hbox.
      set (page1 := addEvent (WaitForTimeout 100)
                      (withCheckboxes (alter toggle (List.length done_) (checkboxes page))
                         (addEvent (ClickBox (List.length done_)) page))).
      destruct (IH (done_ ++ [settled cb])%list page1)
        as (page' & Hrun & Hcbs' & Hev & Hsame).
      { simpl. rewrite Hcbs, <- app_assoc. simpl.
        rewrite (settled_toggle cb Hclick). by rewrite alter_middle. }
      { intros cb' Hin. apply Hboxed. by right. }
      exists page'. rewrite length_app in Hrun, Hev. simpl in Hrun, Hev.
      rewrite Nat.add_1_r in Hrun, Hev.
      rewrite (bind_returned _ _ page page1 tt
                 (configureCheckbox_click _ _ _ Hcb Hclick Hbox)).
      repeat split; try apply Hsame.
      * exact Hrun.
      * by rewrite Hcbs', <- app_assoc.
      * rewrite Hev. simpl. by rewrite <- !app_assoc.
    + destruct (IH (done_ ++ [settled cb])%list page)
        as (page' & Hrun & Hcbs' & Hev & Hsame).
      { rewrite Hcbs, <- app_assoc. simpl. by rewrite (settled_idle cb Hclick). }
      { intros cb' Hin. apply Hboxed. by right. }
      exists page'. rewrite length_app in Hrun, Hev. simpl in Hrun, Hev.
      rewrite Nat.add_1_r in Hrun, Hev.
      rewrite (bind_returned _ _ page page tt (configureCheckbox_idle _ _ _ Hcb Hclick)).
      repeat split; try apply Hsame.
      * exact Hrun.
      * by rewrite Hcbs', <- app_assoc.
      * by rewrite Hev.
Qed.

Lemma configureCheckboxes_stops (before after : list Checkbox)
    (cb : Checkbox) (page : Page) :
  checkboxes page = (before ++ cb :: after)%list ->
  (forall c, c ∈ before -> needsClick c = true -> cb_boxed c = true) ->
  needsClick cb = true -> cb_boxed cb = false ->
  exists page',
    configureCheckboxes page = (Thrown noClickMethod, page') /\
    checkboxes page' = ((settled <$> before) ++ cb :: after)%list /\
    events page' = (events page ++ clicksFrom 0 before)%list /\
    sameSession page page'.
Proof.
  intros Hcbs Hbefore Hclick Hbox.
  destruct (forEach_checkboxes_upto before [] (cb :: after) page Hcbs Hbefore)
    as (page1 & Hrun & Hcbs1 & Hev1 & Hsame1).
  exists page1. split; [| done].
  unfold configureCheckboxes. rewrite (bind_returned get _ page page page eq_refl).
  rewrite Hcbs, length_app. cbn [List.length]. rewrite seq_app.
  rewrite forEach_app. simpl in Hrun. rewrite (bind_returned _ _ _ _ _ Hrun).
  cbn [seq forEach]. apply bind_thrown.
  apply (configureCheckbox_missing_box _ _ cb); [| done | done].
  rewrite Hcbs1. simpl. rewrite <- (length_fmap settled before).
  by apply list_lookup_middle.
Qed.

(** The first checkbox that has to be flipped and has no box ends the
    configuration with a TypeError: the checkboxes before it are in their
    target state, it and the ones after it are as they were, and only the
    boxes before it were clicked; the search step ends with that error as
    well. *)
Theorem missing_box_stops_configuration (before after : list Checkbox)
    (cb : Checkbox) (page : Page) (opts : CrawlerOptions) :
  checkboxes page = (before ++ cb :: after)%list ->
  (forall c, c ∈ before -> needsClick c = true -> cb_boxed c = true) ->
  needsClick cb = true -> cb_boxed cb = false ->
  (exists page',
     configureCheckboxes page = (Thrown noClickMethod, page') /\
     checkboxes page' = ((settled <$> before) ++ cb :: after)%list /\
     events page' = (events page ++ clicksFrom 0 before)%list /\
     sameSession page page') /\
  (settles page = true -> (executeSearch opts page).1 = Thrown noClickMethod).
Proof.
  intros Hcbs Hbefore Hclick Hbox.
  split; [by apply configureCheckboxes_stops |].
  intros Hsettles. set (page1 := addEvent (searchLog opts) page).
  destruct (configureCheckboxes_stops before after cb page1 Hcbs Hbefore Hclick Hbox)
    as (page2 & Hrun2 & _).
  unfold executeSearch.
  rewrite (bind_returned (emit (searchLog opts)) _ page page1 tt eq_refl).
  rewrite (bind_returned (waitForContainer ".search-attr-container") _ page1 page1 tt).
  - by rewrite (bind_thrown _ _ _ _ _ Hrun2).
  - unfold waitForContainer. rewrite (bind_returned get _ _ _ _ eq_refl).
    simpl. by rewrite Hsettles.
Qed.

Lemma missing_box_stops_configuration_witness :
  exists page',
    configureCheckboxes (formPage boxlessCheckboxes None) = (Thrown noClickMethod, page') /\
    cb_checked <$> checkboxes page' = [false; false; true] /\
    events page' = [ClickBox 0; WaitForTimeout 100].
Proof.
  destruct (proj1 (missing_box_stops_configuration
              [{| cb_id := Some "pwp_criteria_1"; cb_checked := true; cb_boxed := true |}]
              [{| cb_id := Some "pwp_criteria_2"; cb_checked := true; cb_boxed := true |}]
              {| cb_id := Some "pwp_criteria_0"; cb_checked := false; cb_boxed := false |}
              (formPage boxlessCheckboxes None) year2024 eq_refl
              ltac:(intros c Hc _; apply list_elem_of_singleton in Hc as ->; reflexivity)
              eq_refl eq_refl))
    as (page' & Hrun & Hcbs & Hev & _).
  exists page'. split; [exact Hrun | split].
  - rewrite Hcbs. reflexivity.
  - rewrite Hev. reflexivity.
Defined.

Lemma boxes_or_first_missing (cbs : list Checkbox) :
  (forall cb, cb ∈ cbs -> needsClick cb = true -> cb_boxed cb = true) \/
  exists before cb after,
    cbs = (before ++ cb :: after)%list /\
    (forall c, c ∈ before -> needsClick c = true -> cb_boxed c = true) /\
    needsClick cb = true /\ cb_boxed cb = false.
Proof.
  induction cbs as [|cb cbs IH].
  - left. by intros cb ?%elem_of_nil.
  - destruct (needsClick cb && negb (cb_boxed cb)) eqn:Hcb.
    + right. exists [], cb, cbs. apply andb_true_iff in Hcb as [Hclick Hbox].
      apply negb_true_iff in Hbox.
      split; [done | split; [by intros c ?%elem_of_nil | done]].
    + assert (needsClick cb = true -> cb_boxed cb = true) as Hok.
      { intros Hclick. rewrite Hclick in Hcb. by apply negb_false_iff in Hcb. }
      destruct IH as [Hall | (before & cb' & after & -> & Hbefore & Hclick & Hbox)].
      * left. intros c [-> | Hc]%elem_of_cons; auto.
      * right. exists (cb :: before), cb', after.
        split; [done | split; [| done]].
        intros c [-> | Hc]%elem_of_cons; auto.
Qed.

Lemma clicksFrom_no_click (i : nat) (cbs : list Checkbox) (selector : string) :
  Click selector ∉ clicksFrom i cbs.
Proof.
  revert i. induction cbs as [|cb cbs IH]; intros i; simpl; [by intros ?%elem_of_nil |].
  rewrite elem_of_app. intros [Hhere | Hlater]; [| by apply (IH (S i))].
  destruct (needsClick cb); [| by apply elem_of_nil in Hhere].
  apply elem_of_cons in Hhere as [[=] | Hhere].
  apply elem_of_cons in Hhere as [[=] | Hhere]. by apply elem_of_nil in Hhere.
Qed.

Lemma inputDateValue_missing (selector value : string) (page : Page) :
  inputs page !! selector = None ->
  inputDateValue selector value page = (Thrown (TimeoutError selector), page).
Proof.
  intros Hnone. unfold inputDateValue. apply bind_thrown. unfold click.
  rewrite (bind_returned get _ page page page eq_refl). by rewrite Hnone.
Qed.

(** The search step clicks the submit button exactly when the form is
    there, and then both dates have been typed before: a form that could
    not be filled is never submitted. *)
Theorem submits_only_a_filled_form (opts : CrawlerOptions) (page : Page) :
  exists new,
    events (executeSearch opts page).2 = (events page ++ new)%list /\
    (submitClick ∈ new <-> FormReady page) /\
    (submitClick ∈ new ->
     exists before, new = (before ++ [submitClick])%list /\
                    typed before = datesTyped opts).
Proof.
  set (page1 := addEvent (searchLog opts) page).
  assert (forall k, executeSearch opts page
                    = (waitForContainer ".search-attr-container" ≫= k) page1 ->
                    settles page = false ->
                    executeSearch opts page
                    = (Thrown (TimeoutError ".search-attr-container"), page1)) as Hwait.
  { intros k -> Hsettles. apply bind_thrown. unfold waitForContainer.
    rewrite (bind_returned get _ _ _ _ eq_refl). simpl. by rewrite Hsettles. }
  destruct (settles page) eqn:Hsettles.
  2:{ exists [searchLog opts]. erewrite Hwait; [| reflexivity | done]. simpl.
      split; [done | split].
      - split; [| intros [? _]; congruence].
        intros Hin. apply list_elem_of_singleton in Hin. discriminate Hin.
      - intros Hin. apply list_elem_of_singleton in Hin. discriminate Hin. }
  clear Hwait.
  assert (executeSearch opts page
          = (configureCheckboxes ≫= fun _ =>
               inputDateValue "#attribute_date_from" (endDate opts) ≫= fun _ =>
               inputDateValue "#attribute_date_to" (startDate opts) ≫= fun _ =>
               searchTail) page1) as Hsearch.
  { unfold executeSearch.
    rewrite (bind_returned (emit (searchLog opts)) _ page page1 tt eq_refl).
    rewrite (bind_returned _ _ page1 page1 tt); [reflexivity |].
    unfold waitForContainer. rewrite (bind_returned get _ _ _ _ eq_refl).
    simpl. by rewrite Hsettles. }
  destruct (boxes_or_first_missing (checkboxes page))
    as [Hboxed | (before & cb & after & Hcbs & Hbefore & Hclick & Hbox)].
  2:{ destruct (configureCheckboxes_stops before after cb page1 Hcbs Hbefore
                  Hclick Hbox) as (page2 & Hrun2 & _ & Hev2 & _).
      exists (searchLog opts :: clicksFrom 0 before).
      rewrite Hsearch, (bind_thrown _ _ _ _ _ Hrun2). simpl. rewrite Hev2. simpl.
      rewrite <- app_assoc. split; [done |].
      assert (submitClick ∉ searchLog opts :: clicksFrom 0 before) as Hnot.
      { intros [[=] | Hin]%elem_of_cons. by apply clicksFrom_no_click in Hin. }
      split; [| done]. split; [done |]. intros (_ & Hall & _).
      rewrite Hcbs in Hall.
      specialize (Hall cb ltac:(apply elem_of_app; right; left) Hclick). congruence. }
  destruct (configureCheckboxes_spec page1 Hboxed) as (page2 & Hrun2 & _ & Hev2 & Hsame2).
  destruct Hsame2 as (_ & _ & Hinputs2 & _).
  rewrite (bind_returned _ _ _ _ _ Hrun2) in Hsearch.
  destruct (inputs page !! "#attribute_date_from") as [oldFrom|] eqn:Hfrom.
  2:{ exists (searchLog opts :: clicksFrom 0 (checkboxes page)).
      rewrite Hsearch.
      rewrite (bind_thrown _ _ page2 page2 _
                 (inputDateValue_missing _ _ page2 ltac:(by rewrite <- Hinputs2))).
      simpl. rewrite Hev2. simpl. rewrite <- app_assoc. split; [done |].
      assert (submitClick ∉ searchLog opts :: clicksFrom 0 (checkboxes page)) as Hnot.
      { intros [[=] | Hin]%elem_of_cons. by apply clicksFrom_no_click in Hin. }
      split; [| done]. split; [done |]. intros (_ & _ & [? Hsome] & _). congruence. }
  destruct (inputDateValue_spec "#attribute_date_from" (endDate opts) oldFrom page2)
    as (page3 & Hrun3 & Hinputs3 & Hev3 & _); [by rewrite <- Hinputs2 |].
  rewrite (bind_returned _ _ _ _ _ Hrun3) in Hsearch.
  destruct (inputs page !! "#attribute_date_to") as [oldTo|] eqn:Hto.
  2:{ exists (searchLog opts :: clicksFrom 0 (checkboxes page)
              ++ dateEvents "#attribute_date_from" (endDate opts))%list.
      rewrite Hsearch.
      rewrite (bind_thrown _ _ page3 page3 _ (inputDateValue_missing _ _ page3
                 ltac:(by rewrite Hinputs3, lookup_insert_ne, <- Hinputs2))).
      simpl. rewrite Hev3, Hev2. simpl. rewrite <- !app_assoc. split; [done |].
      assert (submitClick ∉ (searchLog opts :: clicksFrom 0 (checkboxes page)
                             ++ dateEvents "#attribute_date_from" (endDate opts))%list)
        as Hnot.
      { intros [[=] | Hin]%elem_of_cons.
        apply elem_of_app in Hin as [Hin | Hin]; [by apply clicksFrom_no_click in Hin |].
        unfold dateEvents in Hin.
        repeat (apply elem_of_cons in Hin as [[=] | Hin]). by apply elem_of_nil in Hin. }
      split; [| done]. split; [done |]. intros (_ & _ & _ & [? Hsome]). congruence. }
  destruct (inputDateValue_spec "#attribute_date_to" (startDate opts) oldTo page3)
    as (page4 & Hrun4 & _ & Hev4 & _).
  { by rewrite Hinputs3, lookup_insert_ne, <- Hinputs2. }
  rewrite (bind_returned _ _ _ _ _ Hrun4) in Hsearch.
  destruct (searchTail_frame page4) as (_ & _ & Hev5).
  set (before := (searchLog opts :: clicksFrom 0 (checkboxes page)
                  ++ dateEvents "#attribute_date_from" (endDate opts)
                  ++ dateEvents "#attribute_date_to" (startDate opts))%list).
  exists (before ++ [submitClick])%list. rewrite Hsearch, Hev5, Hev4, Hev3, Hev2.
  split; [subst before; simpl; by rewrite <- !app_assoc |].
  split.
  - split; [intros _ | intros _; apply elem_of_app; right; by left].
    split; [done | split; [done | split; by eexists]].
  - intros _. exists before. split; [done |]. subst before.
    change (searchLog opts :: ?l) with ([searchLog opts] ++ l)%list.
    rewrite !typed_app, typed_clicksFrom. reflexivity.
Qed.

Lemma submits_only_a_filled_form_witness :
  exists new,
    events (executeSearch year2024 (formPage boxlessCheckboxes (Some [firstListing]))).2
    = new /\ submitClick ∉ new.
Proof.
  destruct (submits_only_a_filled_form year2024
              (formPage boxlessCheckboxes (Some [firstListing])))
    as (new & Hev & Hiff & _).
  exists new. split; [exact Hev |]. intros Hin. apply Hiff in Hin as (_ & Hall & _).
  specialize (Hall {| cb_id := Some "pwp_criteria_0"; cb_checked := false;
                      cb_boxed := false |}
                ltac:(right; left) eq_refl).
  discriminate Hall.
Defined.

End FormFacts.

(** ** The walk over the result pages *)

Module WalkFacts.
Import JsString Browser Crawler Notions Fixtures.

Lemma enqueued_walk (docs : list Document) (last : Document) :
  enqueued (walkEvents docs last) = anchors <$> (docs ++ [last])%list.
Proof.
  induction docs as [|d docs IH]; [done |].
  change (enqueued (walkEvents (d :: docs) last))
    with (anchors d :: enqueued (walkEvents docs last)).
  by rewrite IH.
Qed.

Lemma nextClicks_walk (docs : list Document) (last : Document) :
  nextClicks (walkEvents docs last) = List.length docs.
Proof.
  unfold nextClicks. induction docs as [|d docs IH]; simpl; [done | by rewrite IH].
Qed.

Lemma paginate_last (fuel : nat) (page : Page) :
  nextControl (document page) <> Enabled ->
  paginate (S fuel) page
  = (Returned tt,
     addEvent (Log Info "No more pages to paginate.")
       (addEvent (EnqueueLinks (anchors (document page))) page)).
Proof.
  intros Hstop. cbn [paginate]. unfold mbind, M_bind, get, emit. cbn.
  unfold nextButton. by destruct (nextControl (document page)).
Qed.

Lemma paginate_next (fuel : nat) (page : Page) (d : Document) (ds : list Document) :
  nextControl (document page) = Enabled -> later page = d :: ds ->
  paginate (S fuel) page
  = paginate fuel
      (addEvent (WaitForTimeout 1500)
         (withDocuments d ds
            (addEvent ClickNext
               (addEvent (Log Info "Navigating to next page...")
                  (addEvent (EnqueueLinks (anchors (document page))) page))))).
Proof.
  intros Hnext Hlater. cbn [paginate].
  unfold clickNext, waitForTimeout.
  unfold mbind, M_bind, get, emit, setDocuments. cbn.
  unfold nextButton. rewrite Hnext. cbn. rewrite Hlater. reflexivity.
Qed.

Lemma paginate_walk (docs : list Document) (last : Document) (fuel : nat) (page : Page) :
  document page :: later page = (docs ++ [last])%list ->
  Forall (fun d => nextControl d = Enabled) docs ->
  nextControl last <> Enabled ->
  List.length docs < fuel ->
  exists page',
    paginate fuel page = (Returned tt, page') /\
    events page' = (events page ++ walkEvents docs last)%list /\
    document page' = last /\ later page' = [].
Proof.
  revert fuel page.
  induction docs as [|d docs IH]; intros fuel page Hpages Hnext Hstop Hfuel;
    (destruct fuel as [|fuel]; [simpl in Hfuel; lia |]).
  - injection Hpages as Hdoc Hlater. eexists. split.
    + apply paginate_last. by rewrite Hdoc.
    + simpl. by rewrite <- app_assoc, Hdoc.
  - injection Hpages as Hdoc Hlater.
    apply Forall_cons in Hnext as [Hd Hnext].
    destruct (docs ++ [last])%list as [|d' ds] eqn:Hrest;
      [by destruct docs |].
    rewrite (paginate_next fuel page d' ds) by (by rewrite ?Hdoc).
    destruct (IH fuel
                (addEvent (WaitForTimeout 1500)
                   (withDocuments d' ds
                      (addEvent ClickNext
                         (addEvent (Log Info "Navigating to next page...")
                            (addEvent (EnqueueLinks (anchors (document page))) page))))))
      as (page' & Hrun & Hev & Hdoc' & Hlater'); [done | done | done | simpl in Hfuel; lia |].
    exists page'. split; [done | split; [| done]].
    rewrite Hev. simpl. rewrite Hdoc, <- !app_assoc. reflexivity.
Qed.

(** C7: from a results page, with pages [docs] that show an enabled next
    control followed by a page [last] that does not (the control is missing
    or disabled), the loop returns normally after one round per page, given
    at least that many rounds.  It hands the row links of every page to
    enqueueLinks once and in order, so that with N pages there are N calls;
    it clicks the control on each of the first N-1 pages, each click
    followed by a pause of 1500 ms, and ends on the last page.  The default
    handler, the form once filled, does just this. *)
Theorem pagination_visits_every_page (docs : list Document) (last : Document)
    (fuel : nat) (this : Crawler) (page : Page) :
  document page :: later page = (docs ++ [last])%list ->
  Forall (fun d => nextControl d = Enabled) docs ->
  nextControl last <> Enabled ->
  List.length docs < fuel ->
  exists page',
    paginate fuel page = (Returned tt, page') /\
    events page' = (events page ++ walkEvents docs last)%list /\
    enqueued (walkEvents docs last) = anchors <$> (docs ++ [last])%list /\
    List.length (enqueued (walkEvents docs last)) = S (List.length docs) /\
    nextClicks (walkEvents docs last) = List.length docs /\
    document page' = last /\
    (formFilled this = true -> defaultHandler fuel this page = (Returned tt, this, page')).
Proof.
  intros Hpages Hnext Hstop Hfuel.
  destruct (paginate_walk docs last fuel page Hpages Hnext Hstop Hfuel)
    as (page' & Hrun & Hev & Hdoc & _).
  exists page'. repeat apply conj; try done.
  - apply enqueued_walk.
  - rewrite enqueued_walk, length_fmap, length_app. simpl. lia.
  - apply nextClicks_walk.
  - intros Hfilled. unfold defaultHandler.
    rewrite Hfilled, andb_false_r. by rewrite Hrun.
Qed.

Lemma pagination_visits_every_page_witness :
  exists page',
    paginate 3 threePages = (Returned tt, page') /\
    enqueued (events page')
    = [["/detail/1"; "/detail/2"]; ["/detail/3"]; ["/detail/4"]] /\
    nextClicks (events page') = 2.
Proof.
  destruct (pagination_visits_every_page
              [listing ["/detail/1"; "/detail/2"] Enabled; listing ["/detail/3"] Enabled]
              (listing ["/detail/4"] Disabled) 3 (newCrawler year2024) threePages)
    as (page' & Hrun & Hev & _); [reflexivity | | discriminate | simpl; lia |].
  { repeat constructor. }
  exists page'. split; [exact Hrun |]. rewrite Hev. split; reflexivity.
Defined.

(** The entry job on a form that leads to two result pages: the form is
    filled, the flag is set and both pages are walked. *)
Example entry_job_fills_then_walks :
  let '(outcome, this, page) :=
    defaultHandler 2 (newCrawler year2024)
      (formPage someCheckboxes
         (Some [listing ["/detail/1"; "/detail/2"] Enabled;
                listing ["/detail/3"] Disabled])) in
  outcome = Returned tt /\ formFilled this = true /\
  enqueued (events page) = [["/detail/1"; "/detail/2"]; ["/detail/3"]] /\
  typed (events page)
  = [("#attribute_date_from", "2024-12-31"); ("#attribute_date_to", "2024-01-01")].
Proof. vm_compute. repeat split. Qed.

(** A next control that stays enabled with nothing behind it keeps the
    loop going: no number of rounds is enough. *)
Remark paginate_stuck (fuel : nat) (page : Page) :
  nextControl (document page) = Enabled -> later page = [] ->
  (paginate fuel page).1 = Running.
Proof.
  revert page. induction fuel as [|fuel IH]; intros page Hnext Hlater; [done |].
  cbn [paginate]. unfold clickNext, waitForTimeout.
  unfold mbind, M_bind, get, emit. cbn.
  unfold nextButton. rewrite Hnext. cbn. rewrite Hlater. cbn.
  destruct (paginate fuel _) as [c p] eqn:Hrun.
  assert (c = Running) as ->; [| by destruct p].
  change c with (c, p).1. rewrite <- Hrun. by apply IH.
Qed.

Lemma enqueued_app (evs1 evs2 : list Event) :
  enqueued (evs1 ++ evs2)%list = (enqueued evs1 ++ enqueued evs2)%list.
Proof. apply omap_app. Qed.

Lemma nextClicks_app (evs1 evs2 : list Event) :
  nextClicks (evs1 ++ evs2)%list = nextClicks evs1 + nextClicks evs2.
Proof. unfold nextClicks. by rewrite List.filter_app, length_app. Qed.

Lemma paginate_round (fuel : nat) (page : Page) :
  nextControl (document page) = Enabled ->
  paginate (S fuel) page = paginate fuel (afterClick page).
Proof.
  intros Hnext. cbn [paginate]. unfold clickNext, waitForTimeout, afterClick.
  unfold mbind, M_bind, get, emit, setDocuments. cbn.
  unfold nextButton. rewrite Hnext. cbn. by destruct (later page).
Qed.

Lemma afterClick_events (page : Page) :
  events (afterClick page) = (events page ++ roundEvents (document page))%list.
Proof. unfold afterClick. destruct (later page); simpl; by rewrite <- !app_assoc. Qed.

(** When the walk returns, the page it is on shows no enabled next
    control, every page passed was handed to enqueueLinks once, and the
    control was clicked once less than that: whatever the portal serves. *)
Theorem walk_ends_on_a_last_page (fuel : nat) (page page' : Page) :
  paginate fuel page = (Returned tt, page') ->
  nextControl (document page') <> Enabled /\
  exists new,
    events page' = (events page ++ new)%list /\
    List.length (enqueued new) = S (nextClicks new).
Proof.
  revert page. induction fuel as [|fuel IH]; intros page Hrun; [done |].
  assert (nextControl (document page) = Enabled \/
          nextControl (document page) <> Enabled) as [Hnext | Hstop]
    by (destruct (nextControl (document page)); by (left + right)).
  - rewrite (paginate_round fuel page Hnext) in Hrun.
    destruct (IH _ Hrun) as (Hlast & new & Hev & Hcount). split; [done |].
    exists (roundEvents (document page) ++ new)%list.
    rewrite Hev, afterClick_events, <- app_assoc. split; [done |].
    rewrite enqueued_app, nextClicks_app, length_app. simpl. by rewrite Hcount.
  - rewrite (paginate_last fuel page Hstop) in Hrun. injection Hrun as <-.
    split; [done |]. exists (lastEvents (document page)). simpl.
    by rewrite <- app_assoc.
Qed.

Lemma walk_ends_on_a_last_page_witness :
  exists page',
    paginate 3 threePages = (Returned tt, page') /\
    nextControl (document page') <> Enabled.
Proof.
  assert ((paginate 3 threePages).1 = Returned tt) as Hdone by (vm_compute; reflexivity).
  destruct (paginate 3 threePages) as [outcome page'] eqn:Hrun.
  simpl in Hdone. subst outcome.
  exists page'. split; [reflexivity |].
  exact (proj1 (walk_ends_on_a_last_page 3 threePages page' Hrun)).
Defined.

Lemma afterClick_always (page : Page) : AlwaysNext page -> AlwaysNext (afterClick page).
Proof.
  intros [Hdoc Hlater]. unfold AlwaysNext, afterClick.
  destruct (later page) as [|d ds] eqn:Hl; cbn.
  - rewrite Hl. split; [exact Hdoc | constructor].
  - apply Forall_cons in Hlater. exact Hlater.
Qed.

(** On a portal whose next control never goes away the walk does not end:
    after any number of rounds it is still running, and it has clicked
    the control in every one of them. *)
Theorem walk_never_leaves (fuel : nat) (page : Page) :
  AlwaysNext page ->
  exists page' new,
    paginate fuel page = (Running, page') /\
    events page' = (events page ++ new)%list /\
    nextClicks new = fuel /\ List.length (enqueued new) = fuel.
Proof.
  revert page. induction fuel as [|fuel IH]; intros page Halways.
  - exists page, []. simpl. by rewrite app_nil_r.
  - rewrite (paginate_round fuel page (proj1 Halways)).
    destruct (IH _ (afterClick_always page Halways)) as (page' & new & Hrun & Hev & Hn & He).
    exists page', (roundEvents (document page) ++ new)%list.
    rewrite Hrun, Hev, afterClick_events, <- app_assoc.
    split; [done | split; [done |]].
    rewrite nextClicks_app, enqueued_app, length_app. simpl. by rewrite Hn, He.
Qed.

Lemma walk_never_leaves_witness :
  AlwaysNext endlessPage /\ (paginate 5 endlessPage).1 = Running.
Proof.
  assert (AlwaysNext endlessPage) as Halways by (split; [reflexivity | constructor]).
  split; [exact Halways |].
  destruct (walk_never_leaves 5 endlessPage Halways) as (page' & new & Hrun & _).
  by rewrite Hrun.
Defined.



End WalkFacts.

(** ** Detail jobs *)

Module DetailFacts.
Import JsString Extract Browser Crawler Notions Fixtures.

(** The handler of a detail job returns normally whatever the page does. *)
Lemma detailHandler_returns (this : Crawler) (page : DetailPage) :
  (detailHandler this page).1.1 = Returned tt.
Proof.
  unfold detailHandler, detailBody.
  destruct (dp_loads page), (dp_panel page); simpl; try done.
  by destruct (size _ =? 0)%nat.
Qed.

Lemma size_zero_no_key (data : TrademarkData) :
  size data = 0 <-> forall key, data !! key = None.
Proof.
  rewrite map_size_empty_iff. split; [by intros -> key | apply map_empty].
Qed.

Lemma size_some_key (data : TrademarkData) (key : string) (value : option string) :
  data !! key = Some value -> size data <> 0.
Proof.
  intros Hkey Hsize. apply size_zero_no_key with (key := key) in Hsize. congruence.
Qed.

(** C6, the claim as stated fails: a label that matched next to an empty
    value cell gives a record whose one field holds null, so that no field
    of it is populated; the handler appends that record to the results and
    logs no warning. *)
Lemma null_only_record_is_appended :
  getDetailInformation (dp_rows nullOnlyPage) = {[ "status" := None ]} /\
  NoPopulatedField (getDetailInformation (dp_rows nullOnlyPage)) /\
  detailHandler (newCrawler year2024) nullOnlyPage
  = (Returned tt, pushResult (newCrawler year2024) {[ "status" := None ]},
     [ LogUnits Info (pictograph ++ codeUnits " Processing detail: /detail/8");
       WaitForTimeout 1000;
       LogWith Console "Extracted data from /detail/8:" (Fieldset {[ "status" := None ]}) ]) /\
  ~ StatedDetailClaim (newCrawler year2024) nullOnlyPage.
Proof.
  assert (getDetailInformation (dp_rows nullOnlyPage) = {[ "status" := None ]}) as Hdata
    by reflexivity.
  assert (NoPopulatedField (getDetailInformation (dp_rows nullOnlyPage))) as Hnull.
  { intros key value. rewrite Hdata. intros [_ <-]%lookup_singleton_Some. done. }
  assert (detailHandler (newCrawler year2024) nullOnlyPage
          = (Returned tt, pushResult (newCrawler year2024) {[ "status" := None ]},
             [ LogUnits Info (pictograph ++ codeUnits " Processing detail: /detail/8");
               WaitForTimeout 1000;
               LogWith Console "Extracted data from /detail/8:"
                       (Fieldset {[ "status" := None ]}) ])) as Hrun by reflexivity.
  split; [exact Hdata | split; [exact Hnull | split; [exact Hrun |]]].
  intros Hclaim. destruct (Hclaim eq_refl eq_refl Hnull) as (_ & Hresults & _).
  rewrite Hrun in Hresults. apply (f_equal List.length) in Hresults.
  cbn [results pushResult newCrawler fst snd] in Hresults.
  rewrite length_app in Hresults. simpl in Hresults. lia.
Qed.

(** C6: on a page that rendered, a record without any field (no label cell
    selected a field) is not appended: the handler logs the warning "No
    data extracted from: <url>", leaves the crawler as it was and returns
    normally, so that the run goes on with the next job; a record with at
    least one field, be its value a string or null, is appended to the
    results and printed, and the handler returns normally as well. *)
Theorem record_without_fields_is_skipped (this : Crawler) (page : DetailPage) :
  dp_loads page = true -> dp_panel page = true ->
  let data := getDetailInformation (dp_rows page) in
  let started :=
    LogUnits Info (pictograph ++ codeUnits (" Processing detail: " ++ dp_url page)) in
  ((forall key, data !! key = None) ->
   detailHandler this page
   = (Returned tt, this,
      [ started; WaitForTimeout 1000;
        Log Warning ("No data extracted from: " ++ dp_url page) ])) /\
  (forall key value, data !! key = Some value ->
   detailHandler this page
   = (Returned tt, pushResult this data,
      [ started; WaitForTimeout 1000;
        LogWith Console ("Extracted data from " ++ dp_url page ++ ":") (Fieldset data) ])).
Proof.
  intros Hloads Hpanel data started. subst data started.
  unfold detailHandler, detailBody. rewrite Hloads, Hpanel. simpl. split.
  - intros Hempty. apply size_zero_no_key in Hempty. by rewrite Hempty.
  - intros key value Hkey. apply size_some_key in Hkey.
    by destruct (Nat.eqb_spec (size (getDetailInformation (dp_rows page))) 0).
Qed.

Lemma record_without_fields_is_skipped_witness :
  detailHandler (newCrawler year2024) unlabelledPage
  = (Returned tt, newCrawler year2024,
     [ LogUnits Info (pictograph ++ codeUnits " Processing detail: /detail/7");
       WaitForTimeout 1000;
       Log Warning "No data extracted from: /detail/7" ]) /\
  detailHandler (newCrawler year2024) nullOnlyPage
  = (Returned tt,
     pushResult (newCrawler year2024) (getDetailInformation (dp_rows nullOnlyPage)),
     [ LogUnits Info (pictograph ++ codeUnits " Processing detail: /detail/8");
       WaitForTimeout 1000;
       LogWith Console "Extracted data from /detail/8:"
               (Fieldset (getDetailInformation (dp_rows nullOnlyPage))) ]).
Proof.
  split.
  - apply (proj1 (record_without_fields_is_skipped (newCrawler year2024) unlabelledPage
                    eq_refl eq_refl)).
    intros key. reflexivity.
  - apply (proj2 (record_without_fields_is_skipped (newCrawler year2024) nullOnlyPage
                    eq_refl eq_refl) "status" None).
    reflexivity.
Defined.



End DetailFacts.

(** ** The command line and the run *)

Module RunFacts.
Import JsString JsStringFacts DateFns Cli Calendar Browser Crawler CommandLine.
Import Notions Fixtures DateFacts.

Lemma split_value (v junk : string) :
  plain v = true -> Dropped junk ->
  exists more, split "=" (v ++ junk) = v :: more.
Proof.
  intros Hv Hjunk. induction v as [|c v IH]; simpl.
  - destruct Hjunk as [-> | [w ->]]; simpl; by eexists.
  - simpl in Hv. apply andb_true_iff in Hv as [Hc Hv].
    apply negb_true_iff in Hc. rewrite Hc.
    destruct (IH Hv) as [more ->]. by eexists.
Qed.

Lemma split_flag (p t : string) :
  plain p = true -> split "=" (p ++ String "=" t) = p :: split "=" t.
Proof.
  intros Hp. induction p as [|c p IH]; simpl; [done |].
  simpl in Hp. apply andb_true_iff in Hp as [Hc Hp].
  apply negb_true_iff in Hc. by rewrite Hc, (IH Hp).
Qed.

Lemma split_second (p v junk : string) :
  plain p = true -> plain v = true -> Dropped junk ->
  split "=" (p ++ String "=" (v ++ junk)) !! 1 = Some v.
Proof.
  intros Hp Hv Hjunk. rewrite (split_flag p _ Hp).
  by destruct (split_value v junk Hv Hjunk) as [more ->].
Qed.

(** The six ways to give a date or the output file with a flag agree: the
    long and the short flag, with the value in the next argument or after
    an equals sign in the same one; of a value given after an equals sign
    only the part before a further equals sign counts. *)
Theorem flag_spellings_agree (o : RawOptions) (v junk : string) (rest : list string) :
  plain v = true -> Dropped junk ->
  (scan o (("--start-date=" ++ v ++ junk) :: rest) = scan o ("--start-date" :: v :: rest) /\
   scan o (("-s=" ++ v ++ junk) :: rest) = scan o ("--start-date" :: v :: rest) /\
   scan o ("-s" :: v :: rest) = scan o ("--start-date" :: v :: rest)) /\
  (scan o (("--end-date=" ++ v ++ junk) :: rest) = scan o ("--end-date" :: v :: rest) /\
   scan o (("-e=" ++ v ++ junk) :: rest) = scan o ("--end-date" :: v :: rest) /\
   scan o ("-e" :: v :: rest) = scan o ("--end-date" :: v :: rest)) /\
  (scan o (("--output=" ++ v ++ junk) :: rest) = scan o ("--output" :: v :: rest) /\
   scan o (("-o=" ++ v ++ junk) :: rest) = scan o ("--output" :: v :: rest) /\
   scan o ("-o" :: v :: rest) = scan o ("--output" :: v :: rest)).
Proof.
  intros Hv Hjunk.
  pose proof (split_second "--start-date" v junk eq_refl Hv Hjunk) as Hstart.
  pose proof (split_second "-s" v junk eq_refl Hv Hjunk) as Hs.
  pose proof (split_second "--end-date" v junk eq_refl Hv Hjunk) as Hend.
  pose proof (split_second "-e" v junk eq_refl Hv Hjunk) as He.
  pose proof (split_second "--output" v junk eq_refl Hv Hjunk) as Hout.
  pose proof (split_second "-o" v junk eq_refl Hv Hjunk) as Ho.
  repeat split.
  - change (scan o (("--start-date=" ++ v ++ junk) :: rest))
      with (scan (setStart o (split "=" ("--start-date" ++ String "=" (v ++ junk)) !! 1)) rest).
    by rewrite Hstart.
  - change (scan o (("-s=" ++ v ++ junk) :: rest))
      with (scan (setStart o (split "=" ("-s" ++ String "=" (v ++ junk)) !! 1)) rest).
    by rewrite Hs.
  - change (scan o (("--end-date=" ++ v ++ junk) :: rest))
      with (scan (setEnd o (split "=" ("--end-date" ++ String "=" (v ++ junk)) !! 1)) rest).
    by rewrite Hend.
  - change (scan o (("-e=" ++ v ++ junk) :: rest))
      with (scan (setEnd o (split "=" ("-e" ++ String "=" (v ++ junk)) !! 1)) rest).
    by rewrite He.
  - change (scan o (("--output=" ++ v ++ junk) :: rest))
      with (scan (setOutput o (split "=" ("--output" ++ String "=" (v ++ junk)) !! 1)) rest).
    by rewrite Hout.
  - change (scan o (("-o=" ++ v ++ junk) :: rest))
      with (scan (setOutput o (split "=" ("-o" ++ String "=" (v ++ junk)) !! 1)) rest).
    by rewrite Ho.
Qed.

Lemma flag_spellings_agree_witness :
  plain "2024-01-01" = true /\ Dropped "=x" /\
  scan initialOptions ["--start-date=2024-01-01=x"; "-e"; "2024-12-31"]
  = scan initialOptions ["--start-date"; "2024-01-01"; "-e"; "2024-12-31"].
Proof.
  assert (Dropped "=x") as Hjunk by (right; by exists "x").
  split; [reflexivity | split; [exact Hjunk |]].
  exact (proj1 (proj1 (flag_spellings_agree initialOptions "2024-01-01" "=x"
                         ["-e"; "2024-12-31"] eq_refl Hjunk))).
Defined.

Lemma bare_no_flag (arg p : string) :
  bare arg = true ->
  startsWith arg (String "-" p) = false /\ String.eqb arg (String "-" p) = false.
Proof.
  unfold bare. destruct arg as [|c arg]; [by split |]. cbn [startsWith].
  destruct (Ascii.eqb_spec "-" c) as [<- | Hc]; [discriminate |]. intros _.
  split; [done |]. apply String.eqb_neq. by intros [= -> _].
Qed.

(** The loop on a bare argument: it becomes the start date if none is
    set, else the end date if none is set, else it is ignored. *)
Lemma scan_bare (o : RawOptions) (arg : string) (rest : list string) :
  bare arg = true ->
  scan o (arg :: rest)
  = if falsy (rawStart o) then scan (setStart o (Some arg)) rest
    else if falsy (rawEnd o) then scan (setEnd o (Some arg)) rest
    else scan o rest.
Proof.
  intros Hbare. cbn [scan].
  rewrite !(proj1 (bare_no_flag arg _ Hbare)), !(proj2 (bare_no_flag arg _ Hbare)).
  simpl. destruct (falsy (rawStart o)); [done |]. simpl.
  by destruct (falsy (rawEnd o)).
Qed.

Lemma scan_bare_ignored (o : RawOptions) (more : list string) :
  falsy (rawStart o) = false -> falsy (rawEnd o) = false ->
  Forall (fun arg => bare arg = true) more ->
  scan o more = Scanned o.
Proof.
  intros Hs He Hmore. induction Hmore as [|arg more Harg _ IH]; [done |].
  by rewrite (scan_bare o arg more Harg), Hs, He.
Qed.

(** Without flags the first two arguments that do not start with a dash
    are the start and the end date, in that order; further ones are
    ignored, and the output file keeps its default. *)
Theorem positional_dates (a b : string) (more : list string) :
  bare a = true -> a <> "" -> bare b = true -> b <> "" ->
  Forall (fun arg => bare arg = true) more ->
  scan initialOptions (a :: b :: more)
  = Scanned {| rawStart := Some a; rawEnd := Some b; rawOutput := Some "output.json" |}.
Proof.
  intros Ha Hane Hb Hbne Hmore.
  apply truthy_spec in Hane, Hbne.
  rewrite (scan_bare _ a _ Ha).
  cbn [initialOptions rawStart rawEnd rawOutput setStart setEnd falsy truthy negb].
  rewrite (scan_bare _ b _ Hb).
  cbn [initialOptions rawStart rawEnd rawOutput setStart setEnd falsy truthy negb].
  rewrite Hane. cbn [negb].
  apply scan_bare_ignored; simpl; [by rewrite Hane | by rewrite Hbne | done].
Qed.

Lemma positional_dates_witness :
  scan initialOptions ["2024-01-01"; "2024-12-31"; "2025-01-01"]
  = Scanned {| rawStart := Some "2024-01-01"; rawEnd := Some "2024-12-31";
               rawOutput := Some "output.json" |}.
Proof.
  apply (positional_dates "2024-01-01" "2024-12-31" ["2025-01-01"]);
    [reflexivity | discriminate | reflexivity | discriminate |].
  repeat constructor.
Defined.









End RunFacts.
